(** * drft: the playback clock, the track timeline and the synthetic current field

    A shallow embedding of [services/currents.ts] (the synthetic tidal
    model and the source registry), [utils/gridGenerator.ts] (the reference
    grid), [utils/gpxParser.ts] (the track loader) and the [RaceMap]
    component (the playback clock and the position marker), with the
    properties the specification states about them.

    JavaScript numbers are modelled by real numbers: arithmetic is exact, so
    the rounding of IEEE doubles is outside the model, except for the speed
    bound of the synthetic field, which is also computed on doubles.  [NaN],
    which the loader can produce from an unparsable date, is modelled where
    the loader's numbers flow (timestamps and the playback clock), and the
    infinities where a division can be by zero (the longitude step of the
    reference grid).  A [for] loop over a real counter has no structural
    measure, so loops take a fuel argument that bounds the number of guard
    evaluations; [None] means the fuel ran out. *)

From Stdlib Require Import Reals Lra Lia List ZArith String Bool.
From Stdlib Require Floats.
Import ListNotations.
Local Open Scope R_scope.

(** ** JavaScript numbers and loops *)

Module Js.

(** Comparison operators on finite numbers, as booleans. *)
Definition leb (x y : R) : bool := if Rle_dec x y then true else false.
Definition ltb (x y : R) : bool := if Rlt_dec x y then true else false.

(** Truncation toward zero, and the remainder operator [a % b], whose result
    takes the sign of the dividend: [a - b * trunc (a / b)]. *)
Definition trunc (x : R) : Z :=
  if Rle_dec 0 x then Int_part x else (- Int_part (- x))%Z.

Definition rem (a b : R) : R := a - b * IZR (trunc (a / b)).

(** [Math.atan2 y x] on finite arguments (signed zeros are not modelled). *)
Definition atan2 (y x : R) : R :=
  if Rlt_dec 0 x then atan (y / x)
  else if Rlt_dec x 0 then
    if Rle_dec 0 y then atan (y / x) + PI else atan (y / x) - PI
  else if Rlt_dec 0 y then PI / 2
  else if Rlt_dec y 0 then - (PI / 2)
  else 0.

(** [for (let x = start; x <= max; x += step) body], the results of the
    bodies appended in order.  [fuel] bounds the guard evaluations. *)
Fixpoint forUpTo {A : Type} (fuel : nat) (x max step : R)
    (body : R -> option (list A)) : option (list A) :=
  match fuel with
  | O => None
  | S fuel' =>
      if leb x max then
        match body x with
        | None => None
        | Some ys =>
            match forUpTo fuel' (x + step) max step body with
            | None => None
            | Some rest => Some (ys ++ rest)
            end
        end
      else Some []
  end.

(** The result of a division whose divisor may be zero: a finite number, an
    infinity or [NaN]. *)
Inductive quotient : Type :=
| Finite (q : R)
| PlusInfinity
| MinusInfinity
| NotANumber.

(** [x / y] on finite numbers: over zero, a non-zero dividend gives the
    infinity of its sign and zero gives [NaN] (signed zeros are not modelled:
    the zero divisor is the positive one). *)
Definition divide (x y : R) : quotient :=
  if Req_dec_T y 0 then
    if Rlt_dec 0 x then PlusInfinity
    else if Rlt_dec x 0 then MinusInfinity
    else NotANumber
  else Finite (x / y).

(** [for (let x = start; x <= max; x += step) body] when [step] is a
    quotient.  After one iteration with an infinite or [NaN] step the counter
    is that infinity or [NaN]: the guard then fails for [Infinity] and [NaN],
    and holds for ever for [-Infinity]. *)
Definition forUpToBy {A : Type} (fuel : nat) (x max : R) (step : quotient)
    (body : R -> option (list A)) : option (list A) :=
  match step with
  | Finite s => forUpTo fuel x max s body
  | PlusInfinity | NotANumber =>
      match fuel with
      | O => None
      | S fuel' =>
          if leb x max then
            match fuel' with
            | O => None
            | S _ => body x
            end
          else Some []
      end
  | MinusInfinity =>
      match fuel with
      | O => None
      | S _ => if leb x max then None else Some []
      end
  end.

(** A number that may be [NaN]: every arithmetic operator yields [NaN] on a
    [NaN] operand and every comparison with [NaN] is false. *)
Inductive num : Type :=
| NaN
| Num (x : R).

Definition lift2 (f : R -> R -> R) (a b : num) : num :=
  match a, b with
  | Num x, Num y => Num (f x y)
  | _, _ => NaN
  end.

Definition add : num -> num -> num := lift2 Rplus.
Definition mul : num -> num -> num := lift2 Rmult.
Definition div : num -> num -> num := lift2 Rdiv.

Definition cmp (f : R -> R -> bool) (a b : num) : bool :=
  match a, b with
  | Num x, Num y => f x y
  | _, _ => false
  end.

Definition gt (a b : num) : bool := cmp (fun x y => ltb y x) a b.
Definition ge (a b : num) : bool := cmp (fun x y => leb y x) a b.
Definition le (a b : num) : bool := cmp leb a b.

(** [arr[i]]: [undefined] (here [None]) outside the array, in particular at
    index -1. *)
Definition at_ {A : Type} (arr : list A) (i : Z) : option A :=
  if (i <? 0)%Z then None else nth_error arr (Z.to_nat i).

(** [arr.findIndex(pred)]: the index of the first element satisfying [pred],
    or -1. *)
Fixpoint findIndexFrom {A : Type} (pred : A -> bool) (arr : list A) (i : Z) : Z :=
  match arr with
  | [] => (-1)%Z
  | x :: rest => if pred x then i else findIndexFrom pred rest (i + 1)%Z
  end.

Definition findIndex {A : Type} (pred : A -> bool) (arr : list A) : Z :=
  findIndexFrom pred arr 0%Z.

End Js.

(** ** services/currents.ts *)

Module Currents.

Definition Bounds : Type := R * R * R * R.
Definition Color : Type := R * R * R.

(** An element of the array [getGrid] returns. *)
Record GridPoint := {
  position : R * R;
  vector : R * R * R * R;
  speed : R;
  color : Color
}.

Definition TIDE_PERIOD_MS : R := 12.42 * 3600 * 1000.
Definition MAX_CURRENT_SPEED : R := 1.5.
Definition FLOOD_DIR_RAD : R := (45 * PI) / 180.

Definition getColor (speed : R) : Color :=
  let intensity := Rmin (speed / MAX_CURRENT_SPEED) 1 in
  if Js.ltb intensity 0.5 then
    let t := intensity * 2 in
    (30 + (88 - 30) * t, 58 + (28 - 58) * t, 138 + (135 - 138) * t)
  else
    let t := (intensity - 0.5) * 2 in
    (88 + (255 - 88) * t, 28 + (0 - 28) * t, 135 + (200 - 135) * t).

(** The body of the inner loop of [generateMockGrid]: the point pushed for
    one [(lon, lat)]. *)
Definition mockPoint (timestamp phaseOffset speedMultiplier directionOffset : R)
    (lon lat : R) : GridPoint :=
  let phase := (Js.rem timestamp TIDE_PERIOD_MS / TIDE_PERIOD_MS) + phaseOffset in
  let angle := phase * 2 * PI in
  let currentSpeedSigned := cos angle * MAX_CURRENT_SPEED * speedMultiplier in
  let speed := Rabs currentSpeedSigned in
  let flowDir :=
    (if Js.ltb 0 currentSpeedSigned then FLOOD_DIR_RAD else FLOOD_DIR_RAD + PI)
    + directionOffset in
  let u := speed * sin flowDir in
  let v := speed * cos flowDir in
  let direction := (Js.atan2 u v * 180) / PI in
  let direction := if Js.ltb direction 0 then direction + 360 else direction in
  {| position := (lon, lat);
     vector := (u, v, 0, direction);
     speed := speed;
     color := getColor speed |}.

Definition generateMockGrid (fuel : nat) (bounds : Bounds)
    (timestamp resolution phaseOffset speedMultiplier directionOffset : R)
    : option (list GridPoint) :=
  let '(minLon, minLat, maxLon, maxLat) := bounds in
  Js.forUpTo fuel minLon maxLon resolution (fun lon =>
    Js.forUpTo fuel minLat maxLat resolution (fun lat =>
      Some [mockPoint timestamp phaseOffset speedMultiplier directionOffset lon lat])).

Record DataSource := {
  id : string;
  name : string;
  description : string;
  infoUrl : string;
  qualityDescription : string;
  (** [resolution] is optional and defaults to 0.01. *)
  getGrid : nat -> Bounds -> R -> option R -> option (list GridPoint)
}.

Definition defaultResolution (resolution : option R) : R :=
  match resolution with Some r => r | None => 0.01 end.

Definition rws : DataSource := {|
  id := "rws";
  name := "RWS (Matroos)";
  description := "Rijkswaterstaat Hydro Meteo Data";
  infoUrl := "https://waterinfo.rws.nl/";
  qualityDescription := "High-resolution measurement and model data from the Dutch Ministry of Infrastructure. Validated against local buoys. Best for coastal waters.";
  getGrid := fun fuel bounds timestamp resolution =>
    generateMockGrid fuel bounds timestamp (defaultResolution resolution) 0 1 0
|}.

Definition cmems : DataSource := {|
  id := "cmems";
  name := "CMEMS (Copernicus)";
  description := "Global Ocean Physics Analysis";
  infoUrl := "https://marine.copernicus.eu/";
  qualityDescription := "Global reanalysis and forecast data. Lower resolution than RWS but covers wider offshore areas. Good for general trend analysis.";
  getGrid := fun fuel bounds timestamp resolution =>
    generateMockGrid fuel bounds timestamp (defaultResolution resolution) 0.25 0.8 0.1
|}.

Definition DATA_SOURCES : list DataSource := [rws; cmems].

End Currents.

(** ** services/currents.ts, in double precision

    The program computes on IEEE doubles.  The speed of the synthetic field
    is given here as the program rounds it: [angle] and [speed] are the
    arithmetic of lines 58 to 63 of [generateMockGrid] on doubles, from the
    remainder [timestamp % TIDE_PERIOD_MS] and from the value that
    [Math.cos(angle)] returns, both computed by the platform. *)

Module Doubles.

Import Floats.PrimFloat.
Local Open Scope float_scope.
#[local] Set Warnings "-inexact-float".

Definition TIDE_PERIOD_MS : float := 12.42 * 3600 * 1000.
Definition MAX_CURRENT_SPEED : float := 1.5.

(** [Math.PI]. *)
Definition PI : float := 3.141592653589793.

Definition angle (remainder phaseOffset : float) : float :=
  let phase := remainder / TIDE_PERIOD_MS + phaseOffset in
  phase * 2 * PI.

Definition speed (cosine speedMultiplier : float) : float :=
  let currentSpeedSigned := cosine * MAX_CURRENT_SPEED * speedMultiplier in
  abs currentSpeedSigned.

End Doubles.

(** ** utils/gridGenerator.ts *)

Module Grid.

Definition Bounds : Type := R * R * R * R.

Record GridLine := { path : list (R * R) }.

(** 1 degree of latitude is about 60 nautical miles. *)
Definition latSpacing (spacingNm : R) : R := spacingNm / 60.

Definition centerLatRad (minLat maxLat : R) : R :=
  ((minLat + maxLat) / 2) * (PI / 180).

(** The cosine of the centre latitude is zero at the poles: the division is
    the one of [Js.divide], which gives an infinite step there. *)
Definition lonSpacing (spacingNm minLat maxLat : R) : Js.quotient :=
  Js.divide spacingNm (60 * cos (centerLatRad minLat maxLat)).

(** The first loop: latitude lines (horizontal). *)
Definition latLines (fuel : nat) (bounds : Bounds) (spacingNm : R)
    : option (list GridLine) :=
  let '(minLon, minLat, maxLon, maxLat) := bounds in
  Js.forUpTo fuel minLat maxLat (latSpacing spacingNm) (fun lat =>
    Some [ {| path := [(minLon, lat); (maxLon, lat)] |} ]).

(** The second loop: longitude lines (vertical). *)
Definition lonLines (fuel : nat) (bounds : Bounds) (spacingNm : R)
    : option (list GridLine) :=
  let '(minLon, minLat, maxLon, maxLat) := bounds in
  Js.forUpToBy fuel minLon maxLon (lonSpacing spacingNm minLat maxLat) (fun lon =>
    Some [ {| path := [(lon, minLat); (lon, maxLat)] |} ]).

(** [spacingNm] is optional and defaults to 0.1. *)
Definition generateGrid (fuel : nat) (bounds : Bounds) (spacingNm : option R)
    : option (list GridLine) :=
  let spacingNm := match spacingNm with Some s => s | None => 0.1 end in
  match latLines fuel bounds spacingNm with
  | None => None
  | Some horizontal =>
      match lonLines fuel bounds spacingNm with
      | None => None
      | Some vertical => Some (horizontal ++ vertical)
      end
  end.

End Grid.

(** ** utils/gpxParser.ts *)

Module Gpx.

Record TrackPoint := {
  longitude : R;
  latitude : R;
  elevation : R;
  timestamp : Js.num
}.

(** A GeoJSON position [[lon, lat]] or [[lon, lat, ele]]. *)
Record Position := {
  coord0 : R;
  coord1 : R;
  coord2 : option R
}.

(** An entry of [coordTimes]: the string, and the value that
    [new Date(str).getTime()] has for it ([NaN] when the string is not a
    date).  [Date] is a library of the platform, so its result travels with
    the input. *)
Record TimeStr := {
  str : string;
  dateGetTime : Js.num
}.

Inductive Geometry : Type :=
| LineString (coordinates : list Position)
| OtherGeometry (type : string).

Record Properties := {
  coordTimes : option (list (option TimeStr))
}.

Record Feature := {
  geometry : Geometry;
  properties : option Properties
}.

Record FeatureCollection := { features : list Feature }.

Record RaceData := {
  geojson : FeatureCollection;
  trackPoints : list TrackPoint;
  startTime : Js.num;
  endTime : Js.num
}.

Definition isLineString (f : Feature) : bool :=
  match geometry f with
  | LineString _ => true
  | OtherGeometry _ => false
  end.

(** [times[index]] seen through [if (timeStr)]: a missing entry
    ([undefined], [null]) and the empty string are falsy. *)
Definition truthyTime (times : list (option TimeStr)) (index : nat) : option TimeStr :=
  match nth_error times index with
  | Some (Some timeStr) => if String.eqb (str timeStr) "" then None else Some timeStr
  | _ => None
  end.

Definition pointOf (coord : Position) (timeStr : TimeStr) : TrackPoint :=
  {| longitude := coord0 coord;
     latitude := coord1 coord;
     elevation := match coord2 coord with Some e => e | None => 0 end;
     timestamp := dateGetTime timeStr |}.

(** [coords.forEach((coord, index) => ...)], from [index] on. *)
Fixpoint forEachCoord (index : nat) (coords : list Position)
    (times : list (option TimeStr)) : list TrackPoint :=
  match coords with
  | [] => []
  | coord :: rest =>
      match truthyTime times index with
      | Some timeStr => pointOf coord timeStr :: forEachCoord (S index) rest times
      | None => forEachCoord (S index) rest times
      end
  end.

(** [parseGPX], from the feature collection that [gpx(xmlDoc)] returns. *)
Definition parseGPX (geojson : FeatureCollection) : RaceData :=
  let trackPoints :=
    match find isLineString (features geojson) with
    | Some track =>
        match geometry track with
        | LineString coords =>
            let times :=
              match properties track with
              | Some props =>
                  match coordTimes props with Some ts => ts | None => [] end
              | None => []
              end in
            forEachCoord 0 coords times
        | OtherGeometry _ => []
        end
    | None => []
    end in
  let startTime :=
    match trackPoints with
    | first :: _ => timestamp first
    | [] => Js.Num 0
    end in
  let endTime :=
    match trackPoints with
    | first :: _ => timestamp (last trackPoints first)
    | [] => Js.Num 0
    end in
  {| geojson := geojson;
     trackPoints := trackPoints;
     startTime := startTime;
     endTime := endTime |}.

End Gpx.

(** ** The RaceMap component: playback clock and position marker *)

Module RaceMap.

Import Gpx.

(** The component state the clock uses ([useState] cells). *)
Record Playback := {
  currentTime : Js.num;
  isPlaying : bool;
  playbackSpeed : Js.num
}.

(** The state once the track is loaded: [setCurrentTime(data.startTime)],
    not playing, 100x real time. *)
Definition loaded (data : RaceData) : Playback :=
  {| currentTime := startTime data;
     isPlaying := false;
     playbackSpeed := Js.Num 100 |}.

(** One call of [animate]: the updater given to [setCurrentTime], together
    with the [setIsPlaying(false)] it performs.  The callback takes no
    argument: the frame time that [requestAnimationFrame] passes is not
    bound. *)
Definition animate (raceData : RaceData) (st : Playback) : Playback :=
  let prev := currentTime st in
  let next :=
    Js.add prev
      (Js.mul (Js.mul (Js.Num 1000) (playbackSpeed st))
              (Js.div (Js.Num 1) (Js.Num 60))) in
  if Js.gt next (endTime raceData) then
    {| currentTime := endTime raceData;
       isPlaying := false;
       playbackSpeed := playbackSpeed st |}
  else
    {| currentTime := next;
       isPlaying := isPlaying st;
       playbackSpeed := playbackSpeed st |}.

(** An animation frame delivered at [frameTime]: the effect schedules
    [animate] only under [isPlaying && raceData]. *)
Definition frame (frameTime : R) (raceData : option RaceData) (st : Playback)
    : Playback :=
  match raceData with
  | Some data => if isPlaying st then animate data st else st
  | None => st
  end.

(** The PLAY / PAUSE button: [setIsPlaying(!isPlaying)]. *)
Definition togglePlaying (st : Playback) : Playback :=
  {| currentTime := currentTime st;
     isPlaying := negb (isPlaying st);
     playbackSpeed := playbackSpeed st |}.

(** [handleSliderChange]: [setCurrentTime(Number(e.target.value))]; [value]
    is that number. *)
Definition handleSliderChange (value : Js.num) (st : Playback) : Playback :=
  {| currentTime := value;
     isPlaying := isPlaying st;
     playbackSpeed := playbackSpeed st |}.

(** The timeline slider, [<input type="range" min={raceData.startTime}
    max={raceData.endTime} onChange={handleSliderChange}>].  A range input
    keeps the value it reports between its minimum and its maximum, and at
    the minimum when the maximum is below it; [position] is where the user
    puts the thumb.  The rounding of the value to whole steps of one
    millisecond is left out: every number of the range counts as a value the
    slider can report. *)
Definition sliderValue (min max position : R) : R :=
  if Js.ltb max min then min
  else if Js.ltb position min then min
  else if Js.ltb max position then max
  else position.

(** The value the timeline slider of a race reports; an attribute that is
    not a number leaves the input its default, 0 for [min] and 100 for
    [max]. *)
Definition timelineValue (raceData : RaceData) (position : R) : Js.num :=
  let min := match startTime raceData with Js.Num x => x | Js.NaN => 0 end in
  let max := match endTime raceData with Js.Num x => x | Js.NaN => 100 end in
  Js.Num (sliderValue min max position).

(** The speed slider: [setPlaybackSpeed(Number(e.target.value))]. *)
Definition setPlaybackSpeed (value : Js.num) (st : Playback) : Playback :=
  {| currentTime := currentTime st;
     isPlaying := isPlaying st;
     playbackSpeed := value |}.

(** The marker's point: the first point at or after [currentTime], else the
    last point of the track. *)
Definition currentPointIndex (trackPoints : list TrackPoint) (currentTime : Js.num) : Z :=
  Js.findIndex (fun p => Js.ge (timestamp p) currentTime) trackPoints.

Definition currentPoint (trackPoints : list TrackPoint) (currentTime : Js.num)
    : option TrackPoint :=
  let index := currentPointIndex trackPoints currentTime in
  if (0 <=? index)%Z then Js.at_ trackPoints index
  else Js.at_ trackPoints (Z.of_nat (List.length trackPoints) - 1)%Z.

(** The marker layer: its [data] and the positions [getPosition] gives. *)
Record ScatterplotLayer := {
  layerId : string;
  data : list TrackPoint
}.

Definition getPosition (d : TrackPoint) : R * R := (longitude d, latitude d).

(** [currentPoint ? new ScatterplotLayer({...}) : null]. *)
Definition markerLayer (trackPoints : list TrackPoint) (currentTime : Js.num)
    : option ScatterplotLayer :=
  match currentPoint trackPoints currentTime with
  | Some p => Some {| layerId := "marker-layer"; data := [p] |}
  | None => None
  end.

(** The source the currents layer samples:
    [DATA_SOURCES.find(s => s.id === activeSourceId) || DATA_SOURCES[0]]. *)
Definition activeSource (activeSourceId : string) : Currents.DataSource :=
  match
    find (fun s => String.eqb (Currents.id s) activeSourceId) Currents.DATA_SOURCES
  with
  | Some s => s
  | None => hd Currents.rws Currents.DATA_SOURCES
  end.

End RaceMap.

(** ** The RaceMap component: the currents layer *)

Module Layers.

Import Gpx.

(** [Math.min(...xs)] and [Math.max(...xs)] on a non-empty array.  On the
    empty array they are [Infinity] and [-Infinity], which the real numbers
    do not have: [None]. *)
Definition mathMin (xs : list R) : option R :=
  match xs with
  | [] => None
  | x :: rest => Some (fold_left Rmin rest x)
  end.

Definition mathMax (xs : list R) : option R :=
  match xs with
  | [] => None
  | x :: rest => Some (fold_left Rmax rest x)
  end.

(** The box the currents are sampled on: the extent of the track, padded by
    0.02 degrees on every side. *)
Definition currentsBounds (trackPoints : list TrackPoint) : option Currents.Bounds :=
  let lons := map longitude trackPoints in
  let lats := map latitude trackPoints in
  match mathMin lons, mathMax lons, mathMin lats, mathMax lats with
  | Some minLon, Some maxLon, Some minLat, Some maxLat =>
      Some (minLon - 0.02, minLat - 0.02, maxLon + 0.02, maxLat + 0.02)
  | _, _, _, _ => None
  end.

(** [activeSource.getGrid([minLon, minLat, maxLon, maxLat], currentTime, 0.002)]. *)
Definition currents (fuel : nat) (activeSourceId : string)
    (bounds : Currents.Bounds) (currentTime : R) : option (list Currents.GridPoint) :=
  Currents.getGrid (RaceMap.activeSource activeSourceId) fuel bounds currentTime (Some 0.002).



End Layers.

(** * Vocabulary of the properties

    The names below are used to state the properties; none of them is part
    of the program. *)

Module Vocabulary.

Section ColourRamp.

Import Currents.

(** The three colours the ramp of [getColor] passes through. *)
Definition rampSlow : Color := (30, 58, 138).
Definition rampMid : Color := (88, 28, 135).
Definition rampFast : Color := (255, 0, 200).

(** Linear interpolation from [a] to [b], channel by channel. *)
Definition mix (a b : Color) (t : R) : Color :=
  let '(ar, ag, ab) := a in
  let '(br, bg, bb) := b in
  (ar + (br - ar) * t, ag + (bg - ag) * t, ab + (bb - ab) * t).

(** The speed normalised by [MAX_CURRENT_SPEED] and clamped at 1. *)
Definition intensityOf (speed : R) : R := Rmin (speed / MAX_CURRENT_SPEED) 1.

(** The single sample of cmems on a one-point box at the epoch. *)
Definition cmemsSample : GridPoint := mockPoint 0 0.25 0.8 0.1 4 52.

End ColourRamp.

Section ReferenceGrid.

Import Grid.

(** A latitude line and a longitude line of the reference grid. *)
Definition hline (minLon maxLon lat : R) : GridLine :=
  {| path := [(minLon, lat); (maxLon, lat)] |}.

Definition vline (minLat maxLat lon : R) : GridLine :=
  {| path := [(lon, minLat); (lon, maxLat)] |}.

(** The longitude step away from the poles, where the cosine of the centre
    latitude is not zero: the finite value of [lonSpacing]. *)
Definition lonStep (spacingNm minLat maxLat : R) : R :=
  spacingNm / (60 * cos (centerLatRad minLat maxLat)).


End ReferenceGrid.

Section Tracks.

Import Gpx.

(** The feature collection of a GPX file with one track: its coordinates and
    the time entries that go with them. *)
Definition gpxOf (coords : list Position) (times : list (option TimeStr))
    : FeatureCollection :=
  {| features :=
       [ {| geometry := LineString coords;
            properties := Some {| coordTimes := Some times |} |} ] |}.

(** A track of one point without a time. *)
Definition untimedTrack : FeatureCollection :=
  gpxOf [ {| coord0 := 4.27; coord1 := 52.11; coord2 := None |} ] [ None ].

(** A track point of a GPX file as [gpx] of @mapbox/togeojson reads it: its
    position, and the text of its time element when it has one. *)
Record Trkpt := {
  trkptPosition : Position;
  trkptTime : option TimeStr
}.

Definition untimed (pt : Trkpt) : bool :=
  match trkptTime pt with
  | Some timeStr => String.eqb (str timeStr) ""
  | None => true
  end.

(** The times [gpx] collects for a segment, [if (c.time) times.push(c.time)]:
    the time strings of the points that have a non-empty one, in order, with
    no place kept for the other points. *)
Definition timesOf (pts : list Trkpt) : list TimeStr :=
  flat_map (fun pt =>
              match trkptTime pt with
              | Some timeStr => if String.eqb (str timeStr) "" then [] else [timeStr]
              | None => []
              end) pts.

(** The feature collection [gpx] builds from a file whose track has one
    segment: a line through the positions of all the points, with the times
    collected as [coordTimes] when there is any; a segment of fewer than two
    points makes no line. *)
Definition gpxTrack (pts : list Trkpt) : FeatureCollection :=
  if (List.length pts <? 2)%nat then {| features := [] |}
  else
    {| features :=
         [ {| geometry := LineString (map trkptPosition pts);
              properties :=
                Some {| coordTimes :=
                          match timesOf pts with
                          | [] => None
                          | ts => Some (map Some ts)
                          end |} |} ] |}.

(** A segment of three points, the second without a time. *)
Definition gappedPoints : list Trkpt :=
  [ {| trkptPosition := {| coord0 := 4.27; coord1 := 52.11; coord2 := None |};
       trkptTime := Some {| str := "1970-01-01T00:00:00Z"; dateGetTime := Js.Num 0 |} |};
    {| trkptPosition := {| coord0 := 4.28; coord1 := 52.115; coord2 := None |};
       trkptTime := None |};
    {| trkptPosition := {| coord0 := 4.30; coord1 := 52.12; coord2 := None |};
       trkptTime := Some {| str := "1970-01-01T01:00:00Z"; dateGetTime := Js.Num 3600000 |} |} ].

(** The same segment without its last point, every point with a time. *)
Definition shortPoints : list Trkpt :=
  [ {| trkptPosition := {| coord0 := 4.27; coord1 := 52.11; coord2 := None |};
       trkptTime := Some {| str := "1970-01-01T00:00:00Z"; dateGetTime := Js.Num 0 |} |};
    {| trkptPosition := {| coord0 := 4.28; coord1 := 52.115; coord2 := None |};
       trkptTime := Some {| str := "1970-01-01T01:00:00Z"; dateGetTime := Js.Num 3600000 |} |} ].

(** A segment of two points, the time of the first not a date. *)
Definition malformedPoints : list Trkpt :=
  [ {| trkptPosition := {| coord0 := 4.27; coord1 := 52.11; coord2 := None |};
       trkptTime := Some {| str := "not-a-date"; dateGetTime := Js.NaN |} |};
    {| trkptPosition := {| coord0 := 4.30; coord1 := 52.12; coord2 := None |};
       trkptTime := Some {| str := "1970-01-01T01:00:00Z"; dateGetTime := Js.Num 3600000 |} |} ].

(** The two-point track of the end-to-end scenario. *)
Definition hourTrack : FeatureCollection :=
  gpxOf [ {| coord0 := 4.27; coord1 := 52.11; coord2 := None |};
          {| coord0 := 4.30; coord1 := 52.12; coord2 := None |} ]
        [ Some {| str := "1970-01-01T00:00:00Z"; dateGetTime := Js.Num 0 |};
          Some {| str := "1970-01-01T01:00:00Z"; dateGetTime := Js.Num 3600000 |} ].

Definition hourStart : TrackPoint :=
  {| longitude := 4.27; latitude := 52.11; elevation := 0; timestamp := Js.Num 0 |}.

Definition hourEnd : TrackPoint :=
  {| longitude := 4.30; latitude := 52.12; elevation := 0; timestamp := Js.Num 3600000 |}.

End Tracks.

Section Clock.

Import Gpx RaceMap.

(** The operations of the playback clock, in terms of the component's
    handlers.  The button reads PLAY while stopped and PAUSE while playing,
    so [Play] is a click while stopped and [Pause] a click while playing;
    [Seek t] is a change of the timeline slider to [t]; [Tick r] is an
    animation frame arriving [r] milliseconds of real time after the
    previous one. *)
Inductive Op : Type :=
| Play
| Pause
| Seek (t : Js.num)
| Tick (realElapsedMs : R).

Definition step (raceData : RaceData) (frameTime : R) (op : Op) (st : Playback)
    : R * Playback :=
  match op with
  | Play => (frameTime, if isPlaying st then st else togglePlaying st)
  | Pause => (frameTime, if isPlaying st then togglePlaying st else st)
  | Seek t => (frameTime, handleSliderChange t st)
  | Tick r => (frameTime + r, frame (frameTime + r) (Some raceData) st)
  end.

(** A sequence of operations, from the frame time [frameTime] on. *)
Fixpoint run (raceData : RaceData) (frameTime : R) (ops : list Op) (st : Playback)
    : Playback :=
  match ops with
  | [] => st
  | op :: rest =>
      let '(frameTime', st') := step raceData frameTime op st in
      run raceData frameTime' rest st'
  end.

(** The operations as the page delivers them: a click on the button while
    it reads PLAY or PAUSE, the thumb of the timeline slider put at a
    position, an animation frame.  The only caller of [handleSliderChange]
    is the timeline slider, so a seek receives the value of that slider. *)
Inductive Gesture : Type :=
| ClickPlay
| ClickPause
| SlideTo (position : R)
| NextFrame (realElapsedMs : R).

Definition opOf (raceData : RaceData) (g : Gesture) : Op :=
  match g with
  | ClickPlay => Play
  | ClickPause => Pause
  | SlideTo position => Seek (timelineValue raceData position)
  | NextFrame r => Tick r
  end.

(** A clock that is playing at time [c] with speed multiplier [m]. *)
Definition playingAt (c m : R) : Playback :=
  {| currentTime := Js.Num c; isPlaying := true; playbackSpeed := Js.Num m |}.

Definition stoppedAt (c m : R) : Playback :=
  {| currentTime := Js.Num c; isPlaying := false; playbackSpeed := Js.Num m |}.

(** The clock is in range: its current time is a number between [s] and
    [e], and its speed is a non-negative number. *)
Definition inRange (s e : R) (st : Playback) : Prop :=
  exists c m,
    currentTime st = Js.Num c /\ s <= c <= e /\
    playbackSpeed st = Js.Num m /\ 0 <= m.

(** The seek targets a slider bounded by [s] and [e] can deliver. *)
Definition seekWithin (s e : R) (op : Op) : Prop :=
  match op with
  | Seek t => exists x, t = Js.Num x /\ s <= x <= e
  | _ => True
  end.

End Clock.

Section Field.

Import Currents.

(** The components of a sample's [vector]: eastward and northward speed, and
    the compass bearing in degrees. *)
Definition eastward (p : GridPoint) : R := let '(u, _, _, _) := vector p in u.
Definition northward (p : GridPoint) : R := let '(_, v, _, _) := vector p in v.
Definition direction (p : GridPoint) : R := let '(_, _, _, d) := vector p in d.

(** The signed speed of the tide at [timestamp], positive on the flood. *)
Definition signedSpeed (timestamp phaseOffset speedMultiplier : R) : R :=
  cos (((Js.rem timestamp TIDE_PERIOD_MS / TIDE_PERIOD_MS) + phaseOffset) * 2 * PI)
  * MAX_CURRENT_SPEED * speedMultiplier.

(** Two samples at the same place whose vectors are opposite. *)
Definition reversed (p q : GridPoint) : Prop :=
  position q = position p /\ speed q = speed p /\ color q = color p /\
  eastward q = - eastward p /\ northward q = - northward p.

End Field.

Section Loops.

(** The number of iterations of a loop that starts at [x], stops above
    [max] and rises by [step]: the integer part of the span over the step,
    plus one. *)
Definition stepCount (x max step : R) : nat :=
  Z.to_nat (Int_part ((max - x) / step) + 1).

End Loops.

Section Marker.

Import Gpx RaceMap.

(** The time entries of a feature: [properties?.coordTimes || []]. *)
Definition coordTimesOf (track : Feature) : list (option TimeStr) :=
  match properties track with
  | Some props => match coordTimes props with Some ts => ts | None => [] end
  | None => []
  end.


(** The index of the point the marker shows: the index [findIndex] returns,
    or the last index when it returns -1. *)
Definition shownIndex (trackPoints : list TrackPoint) (currentTime : Js.num) : Z :=
  let index := currentPointIndex trackPoints currentTime in
  if (0 <=? index)%Z then index else (Z.of_nat (List.length trackPoints) - 1)%Z.

(** The longitude and latitude of a track point. *)
Definition getLonLat (p : TrackPoint) : R * R := (longitude p, latitude p).

(** A time entry that [if (timeStr)] accepts. *)
Definition timed (entry : option TimeStr) : Prop :=
  exists timeStr, entry = Some timeStr /\ str timeStr <> ""%string.

End Marker.

End Vocabulary.

(** * Properties *)

(** ** Comparisons, remainder and loops *)

Module JsFacts.

Lemma leb_true x y : Js.leb x y = true <-> x <= y.
Proof. unfold Js.leb; destruct (Rle_dec x y); split; intros; easy. Qed.

Lemma leb_false x y : Js.leb x y = false <-> y < x.
Proof. unfold Js.leb; destruct (Rle_dec x y); split; intros; try easy; lra. Qed.

Lemma ltb_true x y : Js.ltb x y = true <-> x < y.
Proof. unfold Js.ltb; destruct (Rlt_dec x y); split; intros; easy. Qed.

Lemma ltb_false x y : Js.ltb x y = false <-> y <= x.
Proof. unfold Js.ltb; destruct (Rlt_dec x y); split; intros; try easy; lra. Qed.

(** Decide every comparison of the goal by linear arithmetic. *)
Ltac rdec :=
  unfold Js.leb, Js.ltb;
  repeat match goal with
  | |- context [Rle_dec ?a ?b] => destruct (Rle_dec a b); try lra
  | |- context [Rlt_dec ?a ?b] => destruct (Rlt_dec a b); try lra
  end.

Lemma Int_part_succ r : Int_part (r + 1) = (Int_part r + 1)%Z.
Proof.
  symmetry; apply Int_part_spec.
  destruct (base_Int_part r) as [Hle Hgt].
  rewrite plus_IZR; lra.
Qed.

(** On a non-negative dividend, adding the (positive) divisor leaves the
    remainder unchanged. *)
Lemma rem_add_period t p : 0 <= t -> 0 < p -> Js.rem (t + p) p = Js.rem t p.
Proof.
  intros Ht Hp. unfold Js.rem, Js.trunc.
  assert (Hq : 0 <= t / p) by (apply Rmult_le_pos; [lra | left; now apply Rinv_0_lt_compat]).
  replace ((t + p) / p) with (t / p + 1) by (field; lra).
  destruct (Rle_dec 0 (t / p)); [| lra].
  destruct (Rle_dec 0 (t / p + 1)); [| lra].
  rewrite Int_part_succ, plus_IZR. ring.
Qed.

(** A loop whose counter rises by a positive step leaves after finitely many
    iterations. *)
Lemma steps_exist (x max step : R) : 0 < step -> exists n : nat, max - x < INR n * step.
Proof.
  intros Hs.
  destruct (Rle_dec x max) as [Hle | Hgt].
  - exists (Z.to_nat (up ((max - x) / step))).
    destruct (archimed ((max - x) / step)) as [Hup _].
    assert (Hq : 0 <= (max - x) / step)
      by (apply Rmult_le_pos; [lra | left; now apply Rinv_0_lt_compat]).
    assert (Hz : (0 <= up ((max - x) / step))%Z) by (apply le_IZR; lra).
    rewrite INR_IZR_INZ, Z2Nat.id by exact Hz.
    apply Rmult_lt_compat_r with (r := step) in Hup; [| exact Hs].
    unfold Rdiv in Hup. rewrite Rmult_assoc, Rinv_l, Rmult_1_r in Hup by lra.
    exact Hup.
  - exists 0%nat. simpl. lra.
Qed.

Lemma forUpTo_enough {A : Type} (body : R -> option (list A)) (max step : R) :
  0 < step -> (forall y, body y <> None) ->
  forall (n fuel : nat) (x : R),
    max - x < INR n * step -> (n < fuel)%nat ->
    Js.forUpTo fuel x max step body <> None.
Proof.
  intros Hs Hbody. induction n as [| n IH]; intros fuel x Hn Hfuel.
  - destruct fuel as [| fuel]; [lia |]. simpl in *.
    destruct (Js.leb x max) eqn:E; [apply leb_true in E; lra | discriminate].
  - destruct fuel as [| fuel]; [lia |]. simpl.
    destruct (Js.leb x max) eqn:E; [| discriminate].
    destruct (body x) as [ys |] eqn:Eb; [| now apply Hbody in Eb].
    assert (Hrec : Js.forUpTo fuel (x + step) max step body <> None).
    { apply IH; [| lia]. rewrite S_INR in Hn. lra. }
    destruct (Js.forUpTo fuel (x + step) max step body); [discriminate | congruence].
Qed.

Lemma forUpTo_ext {A : Type} (body1 body2 : R -> option (list A)) :
  (forall y, body1 y = body2 y) ->
  forall fuel x max step,
    Js.forUpTo fuel x max step body1 = Js.forUpTo fuel x max step body2.
Proof.
  intros Hb. induction fuel as [| fuel IH]; intros x max step; simpl; [reflexivity |].
  now rewrite Hb, IH.
Qed.


(** A loop entered above its bound runs zero times. *)
Lemma forUpTo_above {A : Type} (body : R -> option (list A)) fuel x max step :
  max < x -> Js.forUpTo (S fuel) x max step body = Some [].
Proof.
  intros H. simpl. destruct (Js.leb x max) eqn:E; [apply leb_true in E; lra | reflexivity].
Qed.

(** More fuel does not change what a loop returns. *)
Lemma forUpTo_mono {A : Type} (body : R -> option (list A)) (k : nat) :
  forall fuel x max step out,
    Js.forUpTo fuel x max step body = Some out ->
    Js.forUpTo (fuel + k) x max step body = Some out.
Proof.
  induction fuel as [| fuel IH]; intros x max step out; simpl; [discriminate |].
  destruct (Js.leb x max); [| trivial].
  destruct (body x) as [ys |]; [| discriminate].
  destruct (Js.forUpTo fuel (x + step) max step body) as [rest |] eqn:E; [| discriminate].
  intros [= <-]. now rewrite (IH _ _ _ _ E).
Qed.

(** The number of iterations of a loop with a positive step whose body
    pushes one element: [n] when the counter first exceeds the bound after
    [n] steps. *)
Lemma forUpTo_count {A : Type} (f : R -> A) (max step : R) :
  0 < step ->
  forall (n fuel : nat) (x : R),
    (n < fuel)%nat ->
    max < x + IZR (Z.of_nat n) * step ->
    (n = 0%nat \/ x + (IZR (Z.of_nat n) - 1) * step <= max) ->
    exists out,
      Js.forUpTo fuel x max step (fun y => Some [f y]) = Some out /\
      List.length out = n.
Proof.
  intros Hs. induction n as [| n IH]; intros fuel x Hfuel Hout Hin.
  - destruct fuel as [| fuel]; [lia |]. exists []. split; [| reflexivity].
    apply forUpTo_above. simpl in Hout. lra.
  - destruct fuel as [| fuel]; [lia |].
    destruct Hin as [Hin | Hin]; [discriminate |].
    rewrite Nat2Z.inj_succ, succ_IZR in Hout, Hin.
    assert (Hn : 0 <= IZR (Z.of_nat n)) by (apply IZR_le; lia).
    destruct (IH fuel (x + step)) as [out [Hrun Hlen]]; [lia | lra | |].
    { destruct n as [| n']; [now left | right].
      rewrite Nat2Z.inj_succ, succ_IZR in *. lra. }
    exists (f x :: out). split; [| simpl; now rewrite Hlen].
    simpl. destruct (Js.leb x max) eqn:E.
    + now rewrite Hrun.
    + apply leb_false in E. nra.
Qed.

(** Division by a number that is not zero is the finite quotient; a positive
    number over zero is [Infinity]. *)
Lemma divide_finite x y : y <> 0 -> Js.divide x y = Js.Finite (x / y).
Proof. intros Hy. unfold Js.divide. destruct (Req_dec_T y 0); [contradiction | reflexivity]. Qed.

Lemma divide_by_zero x : 0 < x -> Js.divide x 0 = Js.PlusInfinity.
Proof.
  intros Hx. unfold Js.divide.
  destruct (Req_dec_T 0 0) as [_ | H]; [| now contradiction H].
  destruct (Rlt_dec 0 x); [reflexivity | lra].
Qed.

(** A loop entered above its bound runs zero times, whatever its step. *)
Lemma forUpToBy_above {A : Type} (body : R -> option (list A)) fuel x max step :
  max < x -> Js.forUpToBy (S fuel) x max step body = Some [].
Proof.
  intros H. destruct step; cbn [Js.forUpToBy]; try apply forUpTo_above; trivial;
    destruct (Js.leb x max) eqn:E; try reflexivity; apply leb_true in E; lra.
Qed.

(** With the step [Infinity] a loop that is entered runs exactly once. *)
Lemma forUpToBy_infinite {A : Type} (body : R -> option (list A)) fuel x max :
  x <= max -> Js.forUpToBy (S (S fuel)) x max Js.PlusInfinity body = body x.
Proof.
  intros H. cbn [Js.forUpToBy].
  destruct (Js.leb x max) eqn:E; [reflexivity | apply leb_false in E; lra].
Qed.

End JsFacts.

(** ** The current field: colour ramp, tidal period, speed bound *)

Module CurrentsFacts.

Import Currents JsFacts Vocabulary.

Lemma triple_eq (a b c a' b' c' : R) :
  a = a' -> b = b' -> c = c' -> (a, b, c) = (a', b', c').
Proof. now intros -> -> ->. Qed.

Lemma intensity_cases speed :
  (speed / 1.5 <= 1 /\ intensityOf speed = speed / 1.5) \/
  (1 < speed / 1.5 /\ intensityOf speed = 1).
Proof.
  unfold intensityOf, MAX_CURRENT_SPEED, Rmin.
  destruct (Rle_dec (speed / 1.5) 1); [left | right]; split; lra.
Qed.

Lemma getColor_low speed :
  intensityOf speed < 0.5 -> getColor speed = mix rampSlow rampMid (intensityOf speed * 2).
Proof.
  intros H. unfold getColor. fold (intensityOf speed).
  destruct (Js.ltb (intensityOf speed) 0.5) eqn:E; [reflexivity |].
  apply ltb_false in E; lra.
Qed.

Lemma getColor_high speed :
  0.5 <= intensityOf speed ->
  getColor speed = mix rampMid rampFast ((intensityOf speed - 0.5) * 2).
Proof.
  intros H. unfold getColor. fold (intensityOf speed).
  destruct (Js.ltb (intensityOf speed) 0.5) eqn:E; [| reflexivity].
  apply ltb_true in E; lra.
Qed.

(** C7. The colour ramp: speed 0 gives the slow colour, every speed at or
    above [MAX_CURRENT_SPEED] the fast colour, half of it the mid colour; and
    for a non-negative speed each channel is interpolated linearly, slow to
    mid over normalised speeds in [0, 0.5] and mid to fast over (0.5, 1]. *)
Theorem getColor_ramp :
  getColor 0 = rampSlow /\
  (forall speed, MAX_CURRENT_SPEED <= speed -> getColor speed = rampFast) /\
  getColor (MAX_CURRENT_SPEED / 2) = rampMid /\
  (forall speed, 0 <= speed ->
     0 <= intensityOf speed <= 1 /\
     (intensityOf speed <= 0.5 ->
        getColor speed = mix rampSlow rampMid (intensityOf speed / 0.5)) /\
     (0.5 < intensityOf speed ->
        getColor speed = mix rampMid rampFast ((intensityOf speed - 0.5) / 0.5))).
Proof.
  split; [| split; [| split]].
  - rewrite getColor_low.
    + destruct (intensity_cases 0) as [[_ ->] | [H _]]; [| lra].
      unfold mix, rampSlow, rampMid. apply triple_eq; lra.
    + destruct (intensity_cases 0) as [[_ ->] | [H _]]; lra.
  - intros speed H. unfold MAX_CURRENT_SPEED in H.
    assert (Hi : intensityOf speed = 1).
    { destruct (intensity_cases speed) as [[H1 ->] | [_ ->]]; lra. }
    rewrite getColor_high by lra. rewrite Hi.
    unfold mix, rampMid, rampFast. apply triple_eq; lra.
  - assert (Hi : intensityOf (MAX_CURRENT_SPEED / 2) = 0.5).
    { unfold MAX_CURRENT_SPEED.
      destruct (intensity_cases (1.5 / 2)) as [[_ ->] | [H _]]; lra. }
    rewrite getColor_high by lra. rewrite Hi.
    unfold mix, rampMid, rampFast. apply triple_eq; lra.
  - intros speed Hs.
    assert (Hr : 0 <= intensityOf speed <= 1).
    { destruct (intensity_cases speed) as [[H1 ->] | [_ ->]]; lra. }
    split; [exact Hr | split]; intros H.
    + destruct (Rlt_dec (intensityOf speed) 0.5) as [Hlt | Hge].
      * rewrite getColor_low by exact Hlt.
        unfold mix, rampSlow, rampMid. apply triple_eq; lra.
      * assert (Hi : intensityOf speed = 0.5) by lra.
        rewrite getColor_high by lra. rewrite Hi.
        unfold mix, rampSlow, rampMid, rampFast. apply triple_eq; lra.
    + rewrite getColor_high by lra.
      unfold mix, rampMid, rampFast. apply triple_eq; lra.
Qed.

(** The ramp at three concrete speeds, through [getColor_ramp]. *)
Lemma getColor_ramp_witness :
  1.5 <= 2 /\ getColor 2 = (255, 0, 200) /\
  0 <= 0.3 /\ intensityOf 0.3 <= 0.5 /\
  getColor 0.3 = mix rampSlow rampMid (intensityOf 0.3 / 0.5).
Proof.
  assert (H03 : intensityOf 0.3 <= 0.5).
  { destruct (intensity_cases 0.3) as [[_ ->] | [H _]]; lra. }
  split; [lra | split; [| split; [lra | split; [exact H03 |]]]].
  - apply (proj1 (proj2 getColor_ramp) 2). unfold MAX_CURRENT_SPEED. lra.
  - apply (proj2 (proj2 (proj2 getColor_ramp)) 0.3); [lra | exact H03].
Defined.

(** With a positive resolution the two nested loops return, given enough
    fuel. *)
Lemma generateMockGrid_returns bounds timestamp resolution phaseOffset speedMultiplier directionOffset :
  0 < resolution ->
  exists fuel0 : nat, forall fuel, (fuel0 <= fuel)%nat ->
    exists points,
      generateMockGrid fuel bounds timestamp resolution
        phaseOffset speedMultiplier directionOffset = Some points.
Proof.
  intros Hr. destruct bounds as [[[minLon minLat] maxLon] maxLat].
  destruct (steps_exist minLon maxLon resolution Hr) as [n Hn].
  destruct (steps_exist minLat maxLat resolution Hr) as [k Hk].
  exists (S (n + k)). intros fuel Hfuel. unfold generateMockGrid.
  match goal with |- exists _, ?g = _ => destruct g as [points |] eqn:E end.
  - now exists points.
  - exfalso. revert E. apply forUpTo_enough with (n := n); [exact Hr | | exact Hn | lia].
    intros lon. apply forUpTo_enough with (n := k); [exact Hr | | exact Hk | lia].
    discriminate.
Qed.

Lemma mockPoint_period t phaseOffset speedMultiplier directionOffset lon lat :
  0 <= t ->
  mockPoint (t + TIDE_PERIOD_MS) phaseOffset speedMultiplier directionOffset lon lat
  = mockPoint t phaseOffset speedMultiplier directionOffset lon lat.
Proof.
  intros Ht. unfold mockPoint.
  rewrite rem_add_period; [reflexivity | exact Ht | unfold TIDE_PERIOD_MS; lra].
Qed.

Lemma generateMockGrid_period fuel bounds t resolution phaseOffset speedMultiplier directionOffset :
  0 <= t ->
  generateMockGrid fuel bounds (t + TIDE_PERIOD_MS) resolution
    phaseOffset speedMultiplier directionOffset
  = generateMockGrid fuel bounds t resolution
      phaseOffset speedMultiplier directionOffset.
Proof.
  intros Ht. destruct bounds as [[[minLon minLat] maxLon] maxLat].
  unfold generateMockGrid.
  apply forUpTo_ext; intros lon. apply forUpTo_ext; intros lat.
  now rewrite mockPoint_period.
Qed.

(** C3. Tidal periodicity: for every source of the registry, every bounding
    box, every resolution and every timestamp [t >= 0], [getGrid] at
    [t + TIDE_PERIOD_MS] returns exactly what it returns at [t]: the same
    sample points with the same speed, direction (and colour). *)
Theorem getGrid_tidal_period (src : DataSource) (fuel : nat) (bounds : Bounds)
    (t : R) (resolution : option R) :
  In src DATA_SOURCES -> 0 <= t ->
  getGrid src fuel bounds (t + TIDE_PERIOD_MS) resolution
  = getGrid src fuel bounds t resolution.
Proof.
  intros Hsrc Ht.
  destruct Hsrc as [<- | [<- | []]]; simpl; now apply generateMockGrid_period.
Qed.

(** One tidal period after the epoch, on a box of a single sample point. *)
Lemma getGrid_tidal_period_witness :
  getGrid cmems 2 (4, 52, 4, 52) (0 + TIDE_PERIOD_MS) (Some 1)
  = getGrid cmems 2 (4, 52, 4, 52) 0 (Some 1).
Proof.
  apply (getGrid_tidal_period cmems 2 (4, 52, 4, 52) 0 (Some 1)).
  - right; left; reflexivity.
  - lra.
Defined.

(** [TIDE_PERIOD_MS] is 12.42 hours in milliseconds. *)
Lemma TIDE_PERIOD_MS_value : TIDE_PERIOD_MS = 44712000.
Proof. unfold TIDE_PERIOD_MS. lra. Qed.





Lemma cmemsSample_grid :
  getGrid cmems 2 (4, 52, 4, 52) 0 (Some 1) = Some [cmemsSample].
Proof. simpl. rdec. simpl. rdec. reflexivity. Qed.


End CurrentsFacts.

(** ** The reference grid *)

Module GridFacts.

Import Grid JsFacts Vocabulary.

Lemma sqrt2_bounds : 1.41 < sqrt 2 < 1.42.
Proof.
  assert (H0 : 0 < sqrt 2) by (apply sqrt_lt_R0; lra).
  assert (H2 : sqrt 2 * sqrt 2 = 2) by (apply sqrt_sqrt; lra).
  split; nra.
Qed.

Lemma sqrt3_bounds : 1.73 < sqrt 3 < 1.74.
Proof.
  assert (H0 : 0 < sqrt 3) by (apply sqrt_lt_R0; lra).
  assert (H2 : sqrt 3 * sqrt 3 = 3) by (apply sqrt_sqrt; lra).
  split; nra.
Qed.

Lemma inv_sqrt2 : 1 / sqrt 2 = sqrt 2 / 2.
Proof.
  destruct sqrt2_bounds as [A1 A2].
  assert (H2 : sqrt 2 * sqrt 2 = 2) by (apply sqrt_sqrt; lra).
  field_simplify_eq; lra.
Qed.

(** The cosine of 52.5 degrees, from the half-angle formula at 105 = 60 + 45
    degrees. *)
Lemma cos_7PI24 : 3 / 5 < cos (7 * PI / 24).
Proof.
  pose proof PI_RGT_0 as Hpi.
  set (h := 7 * PI / 24).
  assert (Hh : cos (2 * h) = 2 * cos h * cos h - 1) by apply cos_2a_cos.
  assert (H2h : 2 * h = PI / 3 + PI / 4) by (unfold h; lra).
  rewrite H2h, cos_plus, cos_PI3, cos_PI4, sin_PI3, sin_PI4, inv_sqrt2 in Hh.
  destruct sqrt2_bounds as [A1 A2]. destruct sqrt3_bounds as [B1 B2].
  assert (Hpos : 0 < cos h) by (apply cos_gt_0; unfold h; lra).
  nra.
Qed.

(** The box [4.0, 52.0, 4.5, 52.3] has its centre at 52.15 degrees, between
    45 and 52.5 degrees. *)
Lemma cos_center_bounds : 3 / 5 < cos (centerLatRad 52 52.3) < 4 / 5.
Proof.
  pose proof PI_RGT_0 as Hpi.
  unfold centerLatRad. split.
  - apply Rlt_trans with (1 := cos_7PI24).
    apply cos_decreasing_1; lra.
  - apply Rlt_trans with (cos (PI / 4)).
    + apply cos_decreasing_1; lra.
    + rewrite cos_PI4, inv_sqrt2. destruct sqrt2_bounds. lra.
Qed.

(** The longitude step for 6 nautical miles there: 0.1 / cos(52.15 deg),
    about 0.163 degrees. *)
Lemma lonStep_center_bounds : 1 / 8 < lonStep 6 52 52.3 < 1 / 6.
Proof.
  destruct cos_center_bounds as [Hlo Hhi]. unfold lonStep.
  set (c := cos (centerLatRad 52 52.3)) in *.
  replace (6 / (60 * c)) with (/ (10 * c)) by (field; lra).
  split.
  - replace (1 / 8) with (/ 8) by lra. apply Rinv_lt_contravar; nra.
  - replace (1 / 6) with (/ 6) by lra. apply Rinv_lt_contravar; nra.
Qed.

(** Where the cosine of the centre latitude is not zero the longitude step
    is the finite quotient. *)
Lemma lonSpacing_finite spacingNm minLat maxLat :
  cos (centerLatRad minLat maxLat) <> 0 ->
  lonSpacing spacingNm minLat maxLat = Js.Finite (lonStep spacingNm minLat maxLat).
Proof.
  intros Hc. unfold lonSpacing, lonStep. apply divide_finite.
  intros E. apply Hc. lra.
Qed.

Lemma lonSpacing_center : lonSpacing 6 52 52.3 = Js.Finite (lonStep 6 52 52.3).
Proof. apply lonSpacing_finite. destruct cos_center_bounds. lra. Qed.

Lemma latLines_reference_box :
  latLines 5 (4, 52, 4.5, 52.3) 6 =
  Some [hline 4 4.5 52; hline 4 4.5 52.1; hline 4 4.5 52.2; hline 4 4.5 52.3].
Proof.
  unfold latLines, latSpacing. cbn [Js.forUpTo app]. rdec.
  replace (52 + 6 / 60 + 6 / 60 + 6 / 60) with 52.3 by lra.
  replace (52 + 6 / 60 + 6 / 60) with 52.2 by lra.
  replace (52 + 6 / 60) with 52.1 by lra.
  reflexivity.
Qed.

Lemma lonLines_reference_box :
  lonLines 5 (4, 52, 4.5, 52.3) 6 =
  Some [vline 52 52.3 4;
        vline 52 52.3 (4 + lonStep 6 52 52.3);
        vline 52 52.3 (4 + 2 * lonStep 6 52 52.3);
        vline 52 52.3 (4 + 3 * lonStep 6 52 52.3)].
Proof.
  destruct lonStep_center_bounds as [Hlo Hhi].
  unfold lonLines. rewrite lonSpacing_center. set (s := lonStep 6 52 52.3) in *.
  cbn [Js.forUpToBy Js.forUpTo app]. rdec.
  replace (4 + s + s + s) with (4 + 3 * s) by lra.
  replace (4 + s + s) with (4 + 2 * s) by lra.
  reflexivity.
Qed.

(** C6, as stated, fails: on the box [4.0, 52.0, 4.5, 52.3] a spacing of
    6 nautical miles (0.1 degree of latitude) gives 4 longitude lines, not
    6 give or take one, because the longitude step is always widened by the
    cosine of the centre latitude; and the spacing 0.1 itself, which
    [generateGrid] reads as nautical miles, gives 181 latitude lines. *)
Lemma generateGrid_reference_box_counts :
  (exists horizontal vertical,
     latLines 5 (4, 52, 4.5, 52.3) 6 = Some horizontal /\
     lonLines 5 (4, 52, 4.5, 52.3) 6 = Some vertical /\
     generateGrid 5 (4, 52, 4.5, 52.3) (Some 6) = Some (horizontal ++ vertical) /\
     List.length vertical = 4%nat /\
     ~ (5 <= List.length vertical <= 7)%nat) /\
  (exists horizontal,
     latLines 182 (4, 52, 4.5, 52.3) 0.1 = Some horizontal /\
     List.length horizontal = 181%nat /\
     ~ (3 <= List.length horizontal <= 5)%nat).
Proof.
  split.
  - eexists; eexists.
    split; [exact latLines_reference_box |].
    split; [exact lonLines_reference_box |].
    split.
    + unfold generateGrid.
      now rewrite latLines_reference_box, lonLines_reference_box.
    + simpl. repeat split; lia.
  - unfold latLines, latSpacing.
    destruct (forUpTo_count (fun lat => {| path := [(4, lat); (4.5, lat)] |})
                52.3 (0.1 / 60) ltac:(lra) 181 182 52) as [out [Hrun Hlen]].
    + lia.
    + change (Z.of_nat 181) with 181%Z. lra.
    + right. change (Z.of_nat 181) with 181%Z. lra.
    + exists out. rewrite Hlen. repeat split; [exact Hrun | lia].
Qed.

(** C6, amended. On the box [4.0, 52.0, 4.5, 52.3] with a spacing of
    6 nautical miles, [generateGrid] returns, whatever fuel beyond five guard
    evaluations it is given, the 4 latitude lines at 52.0, 52.1, 52.2 and
    52.3 followed by 4 longitude lines at 4.0 + k * s, k = 0..3, where the
    step s = 0.1 / cos(52.15 deg), the finite value [lonSpacing] has
    there, lies between 1/8 and 1/6 of a degree. *)
Theorem generateGrid_reference_box (k : nat) :
  generateGrid (5 + k) (4, 52, 4.5, 52.3) (Some 6) =
    Some [hline 4 4.5 52; hline 4 4.5 52.1; hline 4 4.5 52.2; hline 4 4.5 52.3;
          vline 52 52.3 4;
          vline 52 52.3 (4 + lonStep 6 52 52.3);
          vline 52 52.3 (4 + 2 * lonStep 6 52 52.3);
          vline 52 52.3 (4 + 3 * lonStep 6 52 52.3)]
  /\ lonSpacing 6 52 52.3 = Js.Finite (lonStep 6 52 52.3)
  /\ 1 / 8 < lonStep 6 52 52.3 < 1 / 6.
Proof.
  split; [| split; [exact lonSpacing_center | exact lonStep_center_bounds]].
  unfold generateGrid.
  pose proof (forUpTo_mono _ k _ _ _ _ _ latLines_reference_box) as Hlat.
  pose proof lonLines_reference_box as Hlon.
  unfold latLines, lonLines in *. rewrite lonSpacing_center in *.
  cbn [Js.forUpToBy] in *.
  apply (forUpTo_mono _ k) in Hlon.
  rewrite Hlat, Hlon. reflexivity.
Qed.



Lemma generateGrid_returns bounds spacingNm :
  0 < spacingNm ->
  (let '(_, minLat, _, maxLat) := bounds in 0 <= cos (centerLatRad minLat maxLat)) ->
  exists fuel0 : nat, forall fuel, (fuel0 <= fuel)%nat ->
    exists lines, generateGrid fuel bounds (Some spacingNm) = Some lines.
Proof.
  destruct bounds as [[[minLon minLat] maxLon] maxLat]. intros Hs Hc.
  assert (Hlat : 0 < latSpacing spacingNm) by (unfold latSpacing; lra).
  destruct (steps_exist minLat maxLat _ Hlat) as [n Hn].
  destruct Hc as [Hc | Hc].
  - assert (Hlon : 0 < lonStep spacingNm minLat maxLat).
    { unfold lonStep. apply Rdiv_lt_0_compat; lra. }
    destruct (steps_exist minLon maxLon _ Hlon) as [k Hk].
    exists (S (n + k)). intros fuel Hfuel. unfold generateGrid, latLines, lonLines.
    rewrite lonSpacing_finite by lra. cbn [Js.forUpToBy].
    pose proof (forUpTo_enough
                  (fun lat => Some [ {| path := [(minLon, lat); (maxLon, lat)] |} ])
                  maxLat _ Hlat ltac:(discriminate) n fuel minLat Hn ltac:(lia)) as H1.
    pose proof (forUpTo_enough
                  (fun lon => Some [ {| path := [(lon, minLat); (lon, maxLat)] |} ])
                  maxLon _ Hlon ltac:(discriminate) k fuel minLon Hk ltac:(lia)) as H2.
    destruct (Js.forUpTo fuel minLat _ _ _) as [h |]; [| congruence].
    destruct (Js.forUpTo fuel minLon _ _ _) as [v |]; [| congruence].
    now exists (h ++ v).
  - exists (S (S n)). intros fuel Hfuel. unfold generateGrid, latLines, lonLines.
    pose proof (forUpTo_enough
                  (fun lat => Some [ {| path := [(minLon, lat); (maxLon, lat)] |} ])
                  maxLat _ Hlat ltac:(discriminate) n fuel minLat Hn ltac:(lia)) as H1.
    destruct (Js.forUpTo fuel minLat _ _ _) as [h |]; [| congruence].
    unfold lonSpacing. rewrite <- Hc, Rmult_0_r, divide_by_zero by exact Hs.
    destruct fuel as [| [| fuel]]; [lia | lia |].
    destruct (Rle_dec minLon maxLon) as [Hle | Hgt].
    + rewrite forUpToBy_infinite by exact Hle. eauto.
    + rewrite forUpToBy_above by lra. eauto.
Qed.

(** A box whose centre latitude is the pole: the cosine is zero, the
    longitude step is [Infinity], and the grid has the three latitude lines
    and the one longitude line at [minLon]. *)
Lemma generateGrid_pole_box :
  lonSpacing 60 89 91 = Js.PlusInfinity /\
  generateGrid 4 (0, 89, 1, 91) (Some 60) =
    Some [hline 0 1 89; hline 0 1 90; hline 0 1 91; vline 89 91 0].
Proof.
  assert (Hq : lonSpacing 60 89 91 = Js.PlusInfinity).
  { unfold lonSpacing, centerLatRad.
    replace ((89 + 91) / 2 * (PI / 180)) with (PI / 2) by lra.
    rewrite cos_PI2, Rmult_0_r. apply divide_by_zero. lra. }
  split; [exact Hq |].
  unfold generateGrid, latLines, lonLines, latSpacing. rewrite Hq.
  rewrite forUpToBy_infinite by lra.
  cbn [Js.forUpTo app]. rdec.
  replace (89 + 60 / 60 + 60 / 60) with 91 by lra.
  replace (89 + 60 / 60) with 90 by lra.
  reflexivity.
Qed.




End GridFacts.

(** ** The track loader *)

Module GpxFacts.

Import Gpx Vocabulary.

Lemma parseGPX_gpxOf coords times :
  trackPoints (parseGPX (gpxOf coords times)) = forEachCoord 0 coords times.
Proof. reflexivity. Qed.

(** The loop over the coordinates, cut at one of them. *)
Lemma forEachCoord_app times before :
  forall index coord after,
    forEachCoord index (before ++ coord :: after) times =
    forEachCoord index before times
    ++ match truthyTime times (index + List.length before) with
       | Some timeStr => [pointOf coord timeStr]
       | None => []
       end
    ++ forEachCoord (S (index + List.length before)) after times.
Proof.
  induction before as [| c before IH]; intros index coord after.
  - simpl. rewrite Nat.add_0_r. now destruct (truthyTime times index).
  - simpl. rewrite IH. replace (S index + List.length before)%nat
      with (index + S (List.length before))%nat by lia.
    now destruct (truthyTime times index).
Qed.

(** Past the end of the times no coordinate is loaded. *)
Lemma forEachCoord_past_end times :
  forall coords index,
    (List.length times <= index)%nat -> forEachCoord index coords times = [].
Proof.
  induction coords as [| c coords IH]; intros index Hidx; simpl; [reflexivity |].
  unfold truthyTime.
  assert (Hnone : nth_error times index = None) by now apply nth_error_None.
  rewrite Hnone. apply IH. lia.
Qed.

(** On times without a hole, the way [gpx] collects them, the coordinates are
    paired with the times in order until either runs out. *)
Lemma forEachCoord_compact :
  forall coords before tss,
    Forall (fun timeStr => str timeStr <> ""%string) tss ->
    forEachCoord (List.length before) coords (before ++ map Some tss) =
    map (fun ct => pointOf (fst ct) (snd ct)) (combine coords tss).
Proof.
  induction coords as [| c coords IH]; intros before tss Hall; [reflexivity |].
  destruct tss as [| t tss].
  - apply forEachCoord_past_end. simpl. rewrite app_nil_r. lia.
  - inversion Hall as [| ? ? Ht Hrest]; subst. cbn [forEachCoord combine map fst snd].
    unfold truthyTime at 1. rewrite nth_error_app2, Nat.sub_diag by lia.
    cbn [map nth_error].
    destruct (String.eqb_spec (str t) ""); [contradiction |].
    f_equal. specialize (IH (before ++ [Some t]) tss Hrest).
    rewrite length_app, Nat.add_1_r, <- app_assoc in IH. exact IH.
Qed.

Lemma timesOf_nonempty pts : Forall (fun timeStr => str timeStr <> ""%string) (timesOf pts).
Proof.
  induction pts as [| pt pts IH]; [constructor |].
  unfold timesOf in *. cbn [flat_map]. destruct (trkptTime pt) as [t |]; [| exact IH].
  destruct (String.eqb_spec (str t) ""); [exact IH |]. now constructor.
Qed.

Lemma timesOf_length pts :
  (List.length (timesOf pts) + List.length (filter untimed pts) = List.length pts)%nat.
Proof.
  induction pts as [| pt pts IH]; [reflexivity |].
  unfold timesOf, untimed in *. cbn [flat_map filter].
  destruct (trkptTime pt) as [t |]; [destruct (String.eqb (str t) "") |];
    rewrite ?length_app; simpl; lia.
Qed.

(** The track points loaded from a segment of at least two points. *)
Lemma parseGPX_gpxTrack pts :
  (2 <= List.length pts)%nat ->
  trackPoints (parseGPX (gpxTrack pts)) =
    map (fun ct => pointOf (fst ct) (snd ct)) (combine (map trkptPosition pts) (timesOf pts)).
Proof.
  intros Hlen. unfold gpxTrack.
  destruct (Nat.ltb_spec (List.length pts) 2) as [H | _]; [lia |].
  unfold parseGPX. cbn [features find isLineString geometry properties coordTimes trackPoints].
  destruct (timesOf pts) as [| t ts] eqn:Et.
  - rewrite forEachCoord_past_end by (simpl; lia). now rewrite combine_nil.
  - rewrite <- Et.
    apply (forEachCoord_compact (map trkptPosition pts) [] (timesOf pts)).
    apply timesOf_nonempty.
Qed.

(** C8, as stated, fails.  In a segment whose second point has no time, that
    point is not dropped: it is loaded with the time of the third point, and
    it is the position of the third point that is left out.  A point whose
    time string is not a date is loaded too, with a [NaN] timestamp that
    becomes the start time.  No count comes back: the track points and the
    times returned for the segment with the untimed point are those of a
    segment of two points that all have a time. *)
Lemma parseGPX_keeps_untimed_point :
  trackPoints (parseGPX (gpxTrack gappedPoints)) =
    [ {| longitude := 4.27; latitude := 52.11; elevation := 0; timestamp := Js.Num 0 |};
      {| longitude := 4.28; latitude := 52.115; elevation := 0;
         timestamp := Js.Num 3600000 |} ] /\
  trackPoints (parseGPX (gpxTrack malformedPoints)) =
    [ {| longitude := 4.27; latitude := 52.11; elevation := 0; timestamp := Js.NaN |};
      hourEnd ] /\
  startTime (parseGPX (gpxTrack malformedPoints)) = Js.NaN /\
  trackPoints (parseGPX (gpxTrack gappedPoints)) =
    trackPoints (parseGPX (gpxTrack shortPoints)) /\
  startTime (parseGPX (gpxTrack gappedPoints)) = startTime (parseGPX (gpxTrack shortPoints)) /\
  endTime (parseGPX (gpxTrack gappedPoints)) = endTime (parseGPX (gpxTrack shortPoints)).
Proof. repeat split; reflexivity. Qed.

(** The track of the end-to-end scenario is what [gpx] builds from two
    points that have a time. *)
Lemma hourTrack_gpxTrack :
  hourTrack =
  gpxTrack
    [ {| trkptPosition := {| coord0 := 4.27; coord1 := 52.11; coord2 := None |};
         trkptTime := Some {| str := "1970-01-01T00:00:00Z"; dateGetTime := Js.Num 0 |} |};
      {| trkptPosition := {| coord0 := 4.30; coord1 := 52.12; coord2 := None |};
         trkptTime :=
           Some {| str := "1970-01-01T01:00:00Z"; dateGetTime := Js.Num 3600000 |} |} ].
Proof. reflexivity. Qed.

(** A point whose time entry is a non-empty string is loaded, with the
    timestamp [Date] gives for the string. *)
Lemma parseGPX_keeps_timed (before after : list Position) (coord : Position)
    (times : list (option TimeStr)) (timeStr : TimeStr) :
  nth_error times (List.length before) = Some (Some timeStr) ->
  str timeStr <> ""%string ->
  trackPoints (parseGPX (gpxOf (before ++ coord :: after) times)) =
    forEachCoord 0 before times
    ++ pointOf coord timeStr
    :: forEachCoord (S (List.length before)) after times.
Proof.
  intros Hnth Hstr. rewrite parseGPX_gpxOf, forEachCoord_app. simpl.
  unfold truthyTime. rewrite Hnth.
  destruct (String.eqb_spec (str timeStr) ""); [contradiction | reflexivity].
Qed.

(** C8, amended. From a segment of at least two points the loader returns
    one track point for each non-empty time string of the segment, with the
    timestamps [Date] gives for these strings, in the order of the file; so
    the points it leaves out are as many as the points of the segment that
    have no time.  [parseGPX] is a total function: it returns its race data
    for every feature collection, and that data has no field for a count. *)
Theorem parseGPX_one_point_per_time (pts : list Trkpt) :
  (2 <= List.length pts)%nat ->
  map timestamp (trackPoints (parseGPX (gpxTrack pts))) = map dateGetTime (timesOf pts) /\
  (List.length (trackPoints (parseGPX (gpxTrack pts))) + List.length (filter untimed pts)
   = List.length pts)%nat.
Proof.
  intros Hlen. rewrite parseGPX_gpxTrack by exact Hlen.
  pose proof (timesOf_length pts) as Hcount.
  assert (Hle : (List.length (timesOf pts) <= List.length (map trkptPosition pts))%nat)
    by (rewrite length_map; lia).
  split.
  - rewrite map_map. cbn [timestamp pointOf].
    rewrite <- (map_map snd dateGetTime).
    f_equal. revert Hle. generalize (map trkptPosition pts) as coords.
    generalize (timesOf pts) as tss.
    induction tss as [| t tss IH]; intros [| c coords] Hle; simpl in *;
      try reflexivity; [lia |].
    f_equal. apply IH. lia.
  - rewrite length_map, length_combine, Nat.min_r by exact Hle. exact Hcount.
Qed.

(** The segment of three points whose second point has no time: two track
    points, with the two timestamps of the file. *)
Lemma parseGPX_one_point_per_time_witness :
  map timestamp (trackPoints (parseGPX (gpxTrack gappedPoints))) =
    map dateGetTime (timesOf gappedPoints) /\
  (List.length (trackPoints (parseGPX (gpxTrack gappedPoints)))
   + List.length (filter untimed gappedPoints)
   = List.length gappedPoints)%nat.
Proof.
  apply (parseGPX_one_point_per_time gappedPoints). simpl. lia.
Defined.

End GpxFacts.

(** ** The position marker and the playback clock *)

Module RaceMapFacts.

Import Gpx RaceMap JsFacts GpxFacts Vocabulary.

(** *** The point at or after the current time *)

Lemma findIndexFrom_first {A : Type} (pred : A -> bool) (before : list A) :
  forall (x : A) (after : list A) (i : Z),
    (forall y, In y before -> pred y = false) -> pred x = true ->
    Js.findIndexFrom pred (before ++ x :: after) i = (i + Z.of_nat (List.length before))%Z.
Proof.
  induction before as [| b before IH]; intros x after i Hb Hx; simpl.
  - rewrite Hx. lia.
  - rewrite (Hb b (or_introl eq_refl)).
    rewrite IH; [lia | | exact Hx]. intros y Hy. apply Hb. now right.
Qed.

Lemma findIndexFrom_none {A : Type} (pred : A -> bool) (arr : list A) :
  forall i : Z,
    (forall y, In y arr -> pred y = false) -> Js.findIndexFrom pred arr i = (-1)%Z.
Proof.
  induction arr as [| a arr IH]; intros i Ha; simpl; [reflexivity |].
  rewrite (Ha a (or_introl eq_refl)). apply IH. intros y Hy. apply Ha. now right.
Qed.

Lemma at_last {A : Type} (arr : list A) (d : A) :
  arr <> [] -> Js.at_ arr (Z.of_nat (List.length arr) - 1) = Some (last arr d).
Proof.
  intros Hne. destruct (exists_last Hne) as [front [x ->]].
  rewrite last_last, length_app. simpl. unfold Js.at_.
  replace (Z.of_nat (List.length front + 1) - 1)%Z with (Z.of_nat (List.length front)) by lia.
  destruct (Z.ltb_spec (Z.of_nat (List.length front)) 0); [lia |].
  rewrite Nat2Z.id, nth_error_app2 by lia. now rewrite Nat.sub_diag.
Qed.

Lemma at_middle {A : Type} (before after : list A) (x : A) :
  Js.at_ (before ++ x :: after) (Z.of_nat (List.length before)) = Some x.
Proof.
  unfold Js.at_. destruct (Z.ltb_spec (Z.of_nat (List.length before)) 0); [lia |].
  rewrite Nat2Z.id, nth_error_app2 by lia. now rewrite Nat.sub_diag.
Qed.

Lemma hourTrack_data :
  parseGPX hourTrack =
  {| geojson := hourTrack;
     trackPoints := [hourStart; hourEnd];
     startTime := Js.Num 0;
     endTime := Js.Num 3600000 |}.
Proof. reflexivity. Qed.

Lemma currentPoint_at_or_after_gen :
  (forall (before after : list TrackPoint) (p : TrackPoint) (t : Js.num),
     (forall q, In q before -> Js.ge (timestamp q) t = false) ->
     Js.ge (timestamp p) t = true ->
     currentPoint (before ++ p :: after) t = Some p) /\
  (forall (points : list TrackPoint) (d : TrackPoint) (t : Js.num),
     points <> [] ->
     (forall q, In q points -> Js.ge (timestamp q) t = false) ->
     currentPoint points t = Some (last points d)).
Proof.
  split.
  - intros before after p t Hbefore Hp. unfold currentPoint, currentPointIndex, Js.findIndex.
    rewrite findIndexFrom_first by assumption. simpl.
    destruct (Z.leb_spec 0 (Z.of_nat (List.length before))); [| lia].
    apply at_middle.
  - intros points d t Hne Hall. unfold currentPoint, currentPointIndex, Js.findIndex.
    rewrite findIndexFrom_none by assumption. simpl.
    now apply at_last.
Qed.

(** C4. On a non-empty track the lookup returns the first point whose
    timestamp is at or after [t]; when no point is, it returns the last
    point.  On the two-point track with timestamps 0 and 3,600,000, after a
    seek to 1,800,000, it returns the second point, where the marker is
    drawn. *)
Theorem currentPoint_at_or_after :
  (forall (before after : list TrackPoint) (p : TrackPoint) (t : Js.num),
     (forall q, In q before -> Js.ge (timestamp q) t = false) ->
     Js.ge (timestamp p) t = true ->
     currentPoint (before ++ p :: after) t = Some p) /\
  (forall (points : list TrackPoint) (d : TrackPoint) (t : Js.num),
     points <> [] ->
     (forall q, In q points -> Js.ge (timestamp q) t = false) ->
     currentPoint points t = Some (last points d)) /\
  (let race := parseGPX hourTrack in
   let st := run race 0 [Seek (Js.Num 1800000)] (loaded race) in
   currentTime st = Js.Num 1800000 /\
   currentPoint (trackPoints race) (currentTime st) = Some hourEnd /\
   option_map (fun layer => map getPosition (data layer))
     (markerLayer (trackPoints race) (currentTime st)) = Some [(4.30, 52.12)]).
Proof.
  split; [exact (proj1 currentPoint_at_or_after_gen) |].
  split; [exact (proj2 currentPoint_at_or_after_gen) |].
  rewrite hourTrack_data. cbv zeta. simpl run. simpl currentTime. simpl trackPoints.
    split; [reflexivity |].
    assert (Hcur : currentPoint [hourStart; hourEnd] (Js.Num 1800000) = Some hourEnd).
    { unfold currentPoint, currentPointIndex, Js.findIndex, hourStart, hourEnd.
      simpl. rdec. reflexivity. }
    split; [exact Hcur |].
    unfold markerLayer. rewrite Hcur. reflexivity.
Qed.

(** The lookup on the two-point track, before its first point and past its
    last point. *)
Lemma currentPoint_at_or_after_witness :
  currentPoint ([] ++ hourStart :: [hourEnd]) (Js.Num (-5)) = Some hourStart /\
  currentPoint [hourStart; hourEnd] (Js.Num 3600001) = Some (last [hourStart; hourEnd] hourStart).
Proof.
  split.
  - apply (proj1 currentPoint_at_or_after [] [hourEnd] hourStart (Js.Num (-5))).
    + intros q [].
    + unfold hourStart. simpl. rdec; try reflexivity.
  - apply (proj1 (proj2 currentPoint_at_or_after) [hourStart; hourEnd] hourStart (Js.Num 3600001)).
    + discriminate.
    + intros q [<- | [<- | []]]; unfold hourStart, hourEnd; simpl; rdec; try reflexivity.
Defined.

(** C9. When the loader finds no point, the start and end times are both 0,
    the lookup yields no point at any time (the index -1 reads outside the
    empty array), and there is no marker layer. *)
Theorem empty_track (geojson : FeatureCollection) (t : Js.num) :
  trackPoints (parseGPX geojson) = [] ->
  startTime (parseGPX geojson) = Js.Num 0 /\
  endTime (parseGPX geojson) = Js.Num 0 /\
  currentPoint (trackPoints (parseGPX geojson)) t = None /\
  markerLayer (trackPoints (parseGPX geojson)) t = None.
Proof.
  intros Hempty. unfold parseGPX in *. simpl in *. rewrite Hempty.
  repeat split; reflexivity.
Qed.

(** A file without any track, and a track whose only point has no time. *)
Lemma empty_track_witness :
  (startTime (parseGPX {| features := [] |}) = Js.Num 0 /\
   endTime (parseGPX {| features := [] |}) = Js.Num 0 /\
   currentPoint (trackPoints (parseGPX {| features := [] |})) (Js.Num 0) = None /\
   markerLayer (trackPoints (parseGPX {| features := [] |})) (Js.Num 0) = None) /\
  (startTime (parseGPX untimedTrack) = Js.Num 0 /\
   endTime (parseGPX untimedTrack) = Js.Num 0 /\
   currentPoint (trackPoints (parseGPX untimedTrack)) (Js.Num 0) = None /\
   markerLayer (trackPoints (parseGPX untimedTrack)) (Js.Num 0) = None).
Proof.
  split.
  - apply (empty_track {| features := [] |} (Js.Num 0)). reflexivity.
  - apply (empty_track untimedTrack (Js.Num 0)). reflexivity.
Defined.

(** *** The playback clock *)

Lemma animate_playing (race : RaceData) (prev m e : R) :
  endTime race = Js.Num e ->
  animate race (playingAt prev m) =
    if Js.ltb e (prev + 1000 * m * (1 / 60)) then stoppedAt e m
    else playingAt (prev + 1000 * m * (1 / 60)) m.
Proof.
  intros He. unfold animate. rewrite He. simpl.
  now destruct (Js.ltb e (prev + 1000 * m * (1 / 60))).
Qed.

(** C1, as stated, fails: with multiplier 100, a frame that arrives 100 ms
    after the previous one advances the clock by 1000 * 100 / 60 ms, not by
    100 * 100 ms, and a frame that arrives after 5 ms advances it just as
    far (the end of the track, 3,600,000, is not in reach). *)
Lemma tick_ignores_elapsed_time :
  snd (step (parseGPX hourTrack) 0 (Tick 100) (playingAt 0 100))
    = playingAt (0 + 1000 * 100 * (1 / 60)) 100 /\
  0 + 1000 * 100 * (1 / 60) <> 0 + 100 * 100 /\
  snd (step (parseGPX hourTrack) 0 (Tick 5) (playingAt 0 100))
    = snd (step (parseGPX hourTrack) 0 (Tick 100) (playingAt 0 100)).
Proof.
  assert (H : forall r, snd (step (parseGPX hourTrack) 0 (Tick r) (playingAt 0 100))
                        = playingAt (0 + 1000 * 100 * (1 / 60)) 100).
  { intros r. simpl snd. unfold frame. simpl isPlaying. cbv iota.
    rewrite (animate_playing _ 0 100 3600000) by reflexivity.
    rdec; reflexivity. }
  split; [apply H | split; [lra |]].
  now rewrite !H.
Qed.

(** C1, amended. While playing, a tick with speed multiplier [m] advances
    the current time by exactly [1000 * m * (1/60)], one sixtieth of a second
    of track time per unit of speed, whatever real time [r] has elapsed; if
    the advanced time exceeds the end time the current time becomes the end
    time and the clock stops, and otherwise the clock keeps playing at the
    advanced time. *)
Theorem tick_fixed_frame (race : RaceData) (frameTime r prev m e : R) :
  endTime race = Js.Num e ->
  (e < prev + 1000 * m * (1 / 60) ->
     snd (step race frameTime (Tick r) (playingAt prev m)) = stoppedAt e m) /\
  (prev + 1000 * m * (1 / 60) <= e ->
     snd (step race frameTime (Tick r) (playingAt prev m))
       = playingAt (prev + 1000 * m * (1 / 60)) m).
Proof.
  intros He. simpl snd. unfold frame. simpl isPlaying. cbv iota.
  rewrite (animate_playing _ prev m e He).
  split; intros H.
  - apply ltb_true in H. now rewrite H.
  - apply ltb_false in H. now rewrite H.
Qed.

(** One second before the end of the one-hour track at 100x: the tick stops
    the clock at the end; one minute before, it advances it. *)
Lemma tick_fixed_frame_witness :
  snd (step (parseGPX hourTrack) 0 (Tick 16) (playingAt 3599000 100))
    = stoppedAt 3600000 100 /\
  snd (step (parseGPX hourTrack) 0 (Tick 16) (playingAt 3540000 100))
    = playingAt (3540000 + 1000 * 100 * (1 / 60)) 100.
Proof.
  split.
  - apply (proj1 (tick_fixed_frame (parseGPX hourTrack) 0 16 3599000 100 3600000 eq_refl)).
    lra.
  - apply (proj2 (tick_fixed_frame (parseGPX hourTrack) 0 16 3540000 100 3600000 eq_refl)).
    lra.
Defined.

Lemma animate_inRange (race : RaceData) (s e : R) (st : Playback) :
  endTime race = Js.Num e -> s <= e ->
  inRange s e st -> inRange s e (animate race st).
Proof.
  intros He Hse (c & m & Hc & Hrange & Hm & Hpos).
  unfold animate. rewrite He, Hc, Hm. simpl.
  destruct (Js.ltb e (c + 1000 * m * (1 / 60))) eqn:E.
  - exists e, m. simpl. repeat split; auto; lra.
  - apply ltb_false in E. exists (c + 1000 * m * (1 / 60)), m. simpl.
    repeat split; auto; lra.
Qed.

Lemma step_inRange (race : RaceData) (s e frameTime : R) (op : Op) (st : Playback) :
  endTime race = Js.Num e -> s <= e -> seekWithin s e op ->
  inRange s e st -> inRange s e (snd (step race frameTime op st)).
Proof.
  intros He Hse Hop Hst. destruct op as [| | t | r]; simpl.
  - destruct (isPlaying st); [exact Hst |].
    destruct Hst as (c & m & H); now exists c, m.
  - destruct (isPlaying st); [| exact Hst].
    destruct Hst as (c & m & H); now exists c, m.
  - destruct Hop as (x & -> & Hx). destruct Hst as (c & m & _ & _ & Hm & Hpos).
    exists x, m. simpl. auto.
  - destruct (isPlaying st); [| exact Hst]. now apply animate_inRange.
Qed.

Lemma run_inRange (race : RaceData) (s e : R) (ops : list Op) :
  endTime race = Js.Num e -> s <= e -> Forall (seekWithin s e) ops ->
  forall frameTime st, inRange s e st -> inRange s e (run race frameTime ops st).
Proof.
  intros He Hse Hops. induction Hops as [| op ops Hop _ IH]; intros frameTime st Hst.
  - exact Hst.
  - simpl. pose proof (step_inRange race s e frameTime op st He Hse Hop Hst) as Hstep.
    destruct (step race frameTime op st) as [frameTime' st']. now apply IH.
Qed.

(** [handleSliderChange] stores the number it is given: it is the slider,
    not the handler, that keeps a seek between the start and the end time. *)
Lemma seek_leaves_range :
  startTime (parseGPX hourTrack) = Js.Num 0 /\
  endTime (parseGPX hourTrack) = Js.Num 3600000 /\
  currentTime (run (parseGPX hourTrack) 0 [Seek (Js.Num 3600001)] (loaded (parseGPX hourTrack)))
    = Js.Num 3600001 /\
  Js.le (Js.Num 3600001) (Js.Num 3600000) = false.
Proof.
  repeat split; try reflexivity. simpl. rdec; reflexivity.
Qed.

(** The value of the timeline slider lies between its bounds. *)
Lemma sliderValue_range min max position :
  min <= max -> min <= sliderValue min max position <= max.
Proof. intros H. unfold sliderValue. rdec; lra. Qed.

Lemma opOf_seekWithin (race : RaceData) (s e : R) (g : Gesture) :
  startTime race = Js.Num s -> endTime race = Js.Num e -> s <= e ->
  seekWithin s e (opOf race g).
Proof.
  intros Hs He Hse. destruct g as [| | position | r]; simpl; trivial.
  unfold timelineValue. rewrite Hs, He.
  eexists. split; [reflexivity |]. now apply sliderValue_range.
Qed.

(** C2. On a timeline with [startTime <= endTime], after any finite sequence
    of play, pause, seek and tick operations from the loaded state
    ([currentTime = startTime]), [startTime <= currentTime <= endTime].
    A seek is the timeline slider put at any position. *)
Theorem clock_invariant (race : RaceData) (s e frameTime : R) (gestures : list Gesture) :
  startTime race = Js.Num s -> endTime race = Js.Num e -> s <= e ->
  exists c,
    currentTime (run race frameTime (map (opOf race) gestures) (loaded race)) = Js.Num c /\
    s <= c <= e.
Proof.
  intros Hs He Hse.
  assert (Hops : Forall (seekWithin s e) (map (opOf race) gestures)).
  { apply Forall_forall. intros op Hin. apply in_map_iff in Hin as (g & <- & _).
    now apply opOf_seekWithin. }
  destruct (run_inRange race s e _ He Hse Hops frameTime (loaded race)) as (c & m & Hc & Hr & _).
  - exists s, 100. unfold loaded. simpl. repeat split; auto; lra.
  - now exists c.
Qed.

(** The one-hour track, with the slider dragged inside the timeline and
    pushed past its end. *)
Lemma clock_invariant_witness :
  exists c,
    currentTime
      (run (parseGPX hourTrack) 0
           (map (opOf (parseGPX hourTrack))
                [ClickPlay; NextFrame 16; SlideTo 3599000; NextFrame 17; NextFrame 16;
                 ClickPause; SlideTo 3600001; ClickPlay; NextFrame 20])
           (loaded (parseGPX hourTrack))) = Js.Num c /\
    0 <= c <= 3600000.
Proof.
  apply (clock_invariant (parseGPX hourTrack) 0 3600000 0
           [ClickPlay; NextFrame 16; SlideTo 3599000; NextFrame 17; NextFrame 16;
            ClickPause; SlideTo 3600001; ClickPlay; NextFrame 20]
           eq_refl eq_refl).
  lra.
Defined.

(** *** Two further properties of the component *)

(** X1. The lookup at the start time of a loaded track returns its first point,
    when that point's timestamp is a number. *)
Theorem currentPoint_at_startTime (geojson : FeatureCollection)
    (first : TrackPoint) (rest : list TrackPoint) (x : R) :
  trackPoints (parseGPX geojson) = first :: rest ->
  timestamp first = Js.Num x ->
  currentPoint (trackPoints (parseGPX geojson)) (startTime (parseGPX geojson))
    = Some first.
Proof.
  intros Hpoints Hx.
  assert (Hstart : startTime (parseGPX geojson) = timestamp first).
  { unfold parseGPX in *. simpl in *. now rewrite Hpoints. }
  rewrite Hstart, Hpoints.
  apply (proj1 currentPoint_at_or_after_gen [] rest first (timestamp first)).
  - intros q [].
  - rewrite Hx. simpl. apply leb_true. lra.
Qed.

Lemma currentPoint_at_startTime_witness :
  currentPoint (trackPoints (parseGPX hourTrack)) (startTime (parseGPX hourTrack))
    = Some hourStart.
Proof.
  apply (currentPoint_at_startTime hourTrack hourStart [hourEnd] 0); reflexivity.
Defined.

(** X2. A source id that is not in the registry falls back to the first
    entry of the registry. *)
Theorem activeSource_fallback (activeSourceId : string) :
  activeSourceId <> "rws"%string -> activeSourceId <> "cmems"%string ->
  activeSource activeSourceId = Currents.rws.
Proof.
  intros Hrws Hcmems. unfold activeSource, Currents.DATA_SOURCES. cbn [find].
  change (Currents.id Currents.rws) with "rws"%string.
  change (Currents.id Currents.cmems) with "cmems"%string.
  destruct (String.eqb_spec "rws" activeSourceId) as [E | _]; [now subst |].
  destruct (String.eqb_spec "cmems" activeSourceId) as [E | _]; [now subst |].
  reflexivity.
Qed.

Lemma activeSource_fallback_witness :
  activeSource "noaa" = Currents.rws.
Proof.
  apply (activeSource_fallback "noaa"); discriminate.
Defined.

End RaceMapFacts.

(** * Further properties *)

(** ** Loops, remainder and [atan2] *)

Module LoopFacts.

Import JsFacts Vocabulary.

(** A loop whose counter does not rise never leaves once it is entered. *)
Lemma forUpTo_diverges {A : Type} (body : R -> option (list A)) (max step : R) :
  step <= 0 ->
  forall (fuel : nat) (x : R), x <= max -> Js.forUpTo fuel x max step body = None.
Proof.
  intros Hs. induction fuel as [| fuel IH]; intros x Hx; simpl; [reflexivity |].
  destruct (Js.leb x max) eqn:E; [| apply leb_false in E; lra].
  destruct (body x); [| reflexivity].
  rewrite IH by lra. reflexivity.
Qed.

(** Every element a loop returns comes from a body run at a counter value
    between the start and the bound. *)
Lemma forUpTo_In_range {A : Type} (body : R -> option (list A))
    (P : R -> A -> Prop) (max step : R) :
  (forall y ys a, body y = Some ys -> In a ys -> P y a) ->
  forall fuel x out a,
    Js.forUpTo fuel x max step body = Some out -> In a out ->
    exists y, x <= y <= max /\ P y a.
Proof.
  intros Hb. induction fuel as [| fuel IH]; intros x out a; simpl; [discriminate |].
  destruct (Js.leb x max) eqn:E; [| intros [= <-] []].
  apply leb_true in E.
  destruct (body x) as [ys |] eqn:Eb; [| discriminate].
  destruct (Js.forUpTo fuel (x + step) max step body) as [rest |] eqn:Er; [| discriminate].
  intros [= <-] Hin. apply in_app_or in Hin as [Hin | Hin].
  - exists x. split; [lra | eauto].
  - destruct (Rle_dec step 0) as [Hneg | Hpos].
    + rewrite forUpTo_diverges in Er by lra. discriminate.
    + destruct (IH _ _ _ Er Hin) as [y [Hy HP]]. exists y. split; [lra | exact HP].
Qed.

Lemma forUpToBy_In_range {A : Type} (body : R -> option (list A))
    (P : R -> A -> Prop) (max : R) (step : Js.quotient) :
  (forall y ys a, body y = Some ys -> In a ys -> P y a) ->
  forall fuel x out a,
    Js.forUpToBy fuel x max step body = Some out -> In a out ->
    exists y, x <= y <= max /\ P y a.
Proof.
  intros Hb fuel x out a.
  destruct step; cbn [Js.forUpToBy];
    [ now apply forUpTo_In_range | | | ];
    (destruct fuel as [| fuel]; [discriminate |]);
    (destruct (Js.leb x max) eqn:E; [| intros [= <-] []]);
    try discriminate;
    (destruct fuel as [| fuel]; [discriminate |]);
    apply leb_true in E; intros Hbody Hin; exists x; (split; [lra | eauto]).
Qed.

(** What a loop returns does not depend on the fuel. *)
Lemma forUpTo_agree {A : Type} (body : R -> option (list A)) fuel1 fuel2 x max step out1 out2 :
  Js.forUpTo fuel1 x max step body = Some out1 ->
  Js.forUpTo fuel2 x max step body = Some out2 ->
  out1 = out2.
Proof.
  intros H1 H2.
  apply forUpTo_mono with (k := fuel2) in H1.
  apply forUpTo_mono with (k := fuel1) in H2.
  rewrite Nat.add_comm in H2. congruence.
Qed.

(** Loops over the same counter values whose bodies are related return
    related lists. *)
Lemma forUpTo_Forall2 {A B : Type} (Q : A -> B -> Prop)
    (body1 : R -> option (list A)) (body2 : R -> option (list B)) :
  (forall y ys zs, body1 y = Some ys -> body2 y = Some zs -> Forall2 Q ys zs) ->
  forall fuel x max step out1 out2,
    Js.forUpTo fuel x max step body1 = Some out1 ->
    Js.forUpTo fuel x max step body2 = Some out2 ->
    Forall2 Q out1 out2.
Proof.
  intros Hb. induction fuel as [| fuel IH]; intros x max step out1 out2; simpl; [discriminate |].
  destruct (Js.leb x max).
  - destruct (body1 x) as [ys |] eqn:E1; [| discriminate].
    destruct (body2 x) as [zs |] eqn:E2; [| discriminate].
    destruct (Js.forUpTo fuel (x + step) max step body1) as [r1 |] eqn:Er1; [| discriminate].
    destruct (Js.forUpTo fuel (x + step) max step body2) as [r2 |] eqn:Er2; [| discriminate].
    intros [= <-] [= <-]. apply Forall2_app; eauto.
  - intros [= <-] [= <-]. constructor.
Qed.

(** The number of iterations of a loop with a positive step that is entered:
    the integer part of the span over the step, plus one. *)
Lemma forUpTo_length {A : Type} (f : R -> A) (fuel : nat) (x max step : R) (out : list A) :
  0 < step -> x <= max ->
  Js.forUpTo fuel x max step (fun y => Some [f y]) = Some out ->
  Z.of_nat (List.length out) = (Int_part ((max - x) / step) + 1)%Z.
Proof.
  intros Hs Hx Hrun.
  set (q := (max - x) / step).
  assert (Hq : 0 <= q) by (apply Rmult_le_pos; [lra | left; now apply Rinv_0_lt_compat]).
  destruct (base_Int_part q) as [Hlo Hhi].
  assert (Hz : (0 <= Int_part q)%Z).
  { apply le_IZR. destruct (Z_le_gt_dec 0 (Int_part q)) as [H | H]; [now apply IZR_le |].
    assert (IZR (Int_part q) <= -1) by (apply IZR_le; lia). lra. }
  assert (Hmul : q * step = max - x) by (unfold q; field; lra).
  set (n := Z.to_nat (Int_part q + 1)).
  assert (Hn : IZR (Z.of_nat n) = IZR (Int_part q) + 1).
  { unfold n. rewrite Z2Nat.id by lia. now rewrite plus_IZR. }
  destruct (forUpTo_count f max step Hs n (S n) x) as [out' [Hrun' Hlen]].
  - lia.
  - rewrite Hn. nra.
  - right. rewrite Hn. nra.
  - rewrite (forUpTo_agree _ _ _ _ _ _ _ _ Hrun Hrun'), Hlen. unfold n.
    rewrite Z2Nat.id by lia. reflexivity.
Qed.

(** The remainder of a non-negative dividend lies between 0 and the
    divisor. *)
Lemma rem_range t p : 0 <= t -> 0 < p -> 0 <= Js.rem t p < p.
Proof.
  intros Ht Hp. unfold Js.rem, Js.trunc.
  assert (Hq : 0 <= t / p) by (apply Rmult_le_pos; [lra | left; now apply Rinv_0_lt_compat]).
  destruct (Rle_dec 0 (t / p)); [| lra].
  destruct (base_Int_part (t / p)) as [Hlo Hhi].
  assert (Hmul : t / p * p = t) by (field; lra).
  split; nra.
Qed.

(** Truncation toward zero commutes with adding one, except across the
    interval (-1, 0). *)
Lemma trunc_succ x : (x <= -1 \/ 0 <= x) -> Js.trunc (x + 1) = (Js.trunc x + 1)%Z.
Proof.
  intros [Hx | Hx]; unfold Js.trunc.
  - destruct (Rle_dec 0 x); [lra |].
    destruct (Rle_dec 0 (x + 1)) as [H0 | H0].
    + assert (x = -1) by lra. subst x.
      replace (-1 + 1) with 0 by lra. replace (- -1) with (0 + 1) by lra.
      rewrite Int_part_succ.
      assert (H : Int_part 0 = 0%Z) by (symmetry; apply Int_part_spec; simpl; lra).
      rewrite H. reflexivity.
    + replace (- x) with (- (x + 1) + 1) by lra. rewrite Int_part_succ. lia.
  - destruct (Rle_dec 0 x); [| lra].
    destruct (Rle_dec 0 (x + 1)); [| lra].
    apply Int_part_succ.
Qed.

Lemma trunc_small x : -1 < x < 1 -> Js.trunc x = 0%Z.
Proof.
  intros Hx. unfold Js.trunc. destruct (Rle_dec 0 x).
  - symmetry. apply Int_part_spec. simpl. lra.
  - assert (H : Int_part (- x) = 0%Z) by (symmetry; apply Int_part_spec; simpl; lra).
    rewrite H. reflexivity.
Qed.

(** Adding the divisor to any dividend leaves the remainder unchanged or
    raises it by the divisor. *)
Lemma rem_add_period_any t p :
  0 < p -> Js.rem (t + p) p = Js.rem t p \/ Js.rem (t + p) p = Js.rem t p + p.
Proof.
  intros Hp. unfold Js.rem.
  replace ((t + p) / p) with (t / p + 1) by (field; lra).
  destruct (Rle_dec (t / p) (-1)) as [H1 | H1].
  - left. rewrite trunc_succ by now left. rewrite plus_IZR. ring.
  - destruct (Rle_dec 0 (t / p)) as [H0 | H0].
    + left. rewrite trunc_succ by now right. rewrite plus_IZR. ring.
    + right. rewrite !trunc_small by lra. simpl. ring.
Qed.

(** The same count when each body returns [k] elements. *)
Lemma forUpTo_count_const {A : Type} (body : R -> option (list A)) (k : nat) (max step : R) :
  0 < step ->
  (forall y ys, body y = Some ys -> List.length ys = k) ->
  forall (n fuel : nat) (x : R) (out : list A),
    max < x + IZR (Z.of_nat n) * step ->
    (n = 0%nat \/ x + (IZR (Z.of_nat n) - 1) * step <= max) ->
    Js.forUpTo fuel x max step body = Some out ->
    List.length out = (n * k)%nat.
Proof.
  intros Hs Hk. induction n as [| n IH]; intros fuel x out Hout Hin Hrun.
  - destruct fuel as [| fuel]; [discriminate |].
    rewrite forUpTo_above in Hrun by (simpl in Hout; lra).
    injection Hrun as <-. reflexivity.
  - destruct fuel as [| fuel]; [discriminate |].
    destruct Hin as [Hin | Hin]; [discriminate |].
    rewrite Nat2Z.inj_succ, succ_IZR in Hout, Hin.
    assert (Hn : 0 <= IZR (Z.of_nat n)) by (apply IZR_le; lia).
    simpl in Hrun. destruct (Js.leb x max) eqn:E; [| apply leb_false in E; nra].
    destruct (body x) as [ys |] eqn:Eb; [| discriminate].
    destruct (Js.forUpTo fuel (x + step) max step body) as [rest |] eqn:Er; [| discriminate].
    injection Hrun as <-. rewrite length_app, (Hk _ _ Eb).
    rewrite (IH fuel (x + step) rest); [simpl; lia | lra | | exact Er].
    destruct n as [| n']; [now left | right].
    rewrite Nat2Z.inj_succ, succ_IZR in *. lra.
Qed.

Lemma forUpTo_length_const {A : Type} (body : R -> option (list A)) (k fuel : nat)
    (x max step : R) (out : list A) :
  0 < step -> x <= max ->
  (forall y ys, body y = Some ys -> List.length ys = k) ->
  Js.forUpTo fuel x max step body = Some out ->
  Z.of_nat (List.length out) = ((Int_part ((max - x) / step) + 1) * Z.of_nat k)%Z.
Proof.
  intros Hs Hx Hk Hrun.
  set (q := (max - x) / step).
  assert (Hq : 0 <= q) by (apply Rmult_le_pos; [lra | left; now apply Rinv_0_lt_compat]).
  destruct (base_Int_part q) as [Hlo Hhi].
  assert (Hz : (0 <= Int_part q)%Z).
  { destruct (Z_le_gt_dec 0 (Int_part q)) as [H | H]; [exact H |].
    assert (IZR (Int_part q) <= -1) by (apply IZR_le; lia). lra. }
  assert (Hmul : q * step = max - x) by (unfold q; field; lra).
  set (n := Z.to_nat (Int_part q + 1)).
  assert (Hn : IZR (Z.of_nat n) = IZR (Int_part q) + 1).
  { unfold n. rewrite Z2Nat.id by lia. now rewrite plus_IZR. }
  rewrite (forUpTo_count_const body k max step Hs Hk n fuel x out); [| rewrite Hn; nra | right; rewrite Hn; nra | exact Hrun].
  unfold n. rewrite Nat2Z.inj_mul, Z2Nat.id by lia. reflexivity.
Qed.

(** Adding half the divisor to a non-negative dividend moves the remainder
    by half the divisor, up or down. *)
Lemma rem_add_half t p :
  0 <= t -> 0 < p ->
  Js.rem (t + p / 2) p = Js.rem t p + p / 2 \/ Js.rem (t + p / 2) p = Js.rem t p - p / 2.
Proof.
  intros Ht Hp. unfold Js.rem, Js.trunc.
  assert (Hq : 0 <= t / p) by (apply Rmult_le_pos; [lra | left; now apply Rinv_0_lt_compat]).
  replace ((t + p / 2) / p) with (t / p + 1 / 2) by (field; lra).
  destruct (Rle_dec 0 (t / p)); [| lra].
  destruct (Rle_dec 0 (t / p + 1 / 2)); [| lra].
  destruct (base_Int_part (t / p)) as [Hlo Hhi].
  destruct (Rlt_dec (t / p + 1 / 2) (IZR (Int_part (t / p)) + 1)) as [Hlt | Hge].
  - left. replace (Int_part (t / p + 1 / 2)) with (Int_part (t / p)); [ring |].
    apply Int_part_spec. lra.
  - right. replace (Int_part (t / p + 1 / 2)) with (Int_part (t / p) + 1)%Z.
    + rewrite plus_IZR. field.
    + apply Int_part_spec. rewrite plus_IZR. lra.
Qed.

(** A loop with a positive step whose body pushes one element returns the
    bodies at the start, the start plus one step, two steps, and so on. *)
Lemma forUpTo_enumerate {A : Type} (f : R -> A) (max step : R) :
  0 < step ->
  forall (n fuel : nat) (x : R) (out : list A),
    max < x + IZR (Z.of_nat n) * step ->
    (n = 0%nat \/ x + (IZR (Z.of_nat n) - 1) * step <= max) ->
    Js.forUpTo fuel x max step (fun y => Some [f y]) = Some out ->
    out = map (fun k => f (x + INR k * step)) (seq 0 n).
Proof.
  intros Hs. induction n as [| n IH]; intros fuel x out Hout Hin Hrun.
  - destruct fuel as [| fuel]; [discriminate |].
    rewrite forUpTo_above in Hrun by (simpl in Hout; lra).
    injection Hrun as <-. reflexivity.
  - destruct fuel as [| fuel]; [discriminate |].
    destruct Hin as [Hin | Hin]; [discriminate |].
    rewrite Nat2Z.inj_succ, succ_IZR in Hout, Hin.
    assert (Hn : 0 <= IZR (Z.of_nat n)) by (apply IZR_le; lia).
    simpl in Hrun. destruct (Js.leb x max) eqn:E; [| apply leb_false in E; nra].
    destruct (Js.forUpTo fuel (x + step) max step (fun y => Some [f y])) as [rest |] eqn:Er;
      [| discriminate].
    injection Hrun as <-.
    rewrite (IH fuel (x + step) rest); [| lra | | exact Er].
    + cbn [seq map]. f_equal.
      * f_equal. simpl. ring.
      * rewrite <- seq_shift, map_map. apply map_ext. intros k.
        f_equal. rewrite S_INR. ring.
    + destruct n as [| n']; [now left | right].
      rewrite Nat2Z.inj_succ, succ_IZR in *. lra.
Qed.

Lemma stepCount_spec x max step :
  0 < step -> x <= max ->
  max < x + IZR (Z.of_nat (stepCount x max step)) * step /\
  x + (IZR (Z.of_nat (stepCount x max step)) - 1) * step <= max /\
  Z.of_nat (stepCount x max step) = (Int_part ((max - x) / step) + 1)%Z.
Proof.
  intros Hs Hx. unfold stepCount.
  set (q := (max - x) / step).
  assert (Hq : 0 <= q) by (apply Rmult_le_pos; [lra | left; now apply Rinv_0_lt_compat]).
  destruct (base_Int_part q) as [Hlo Hhi].
  assert (Hz : (0 <= Int_part q)%Z).
  { destruct (Z_le_gt_dec 0 (Int_part q)) as [H | H]; [exact H |].
    assert (IZR (Int_part q) <= -1) by (apply IZR_le; lia). lra. }
  assert (Hmul : q * step = max - x) by (unfold q; field; lra).
  rewrite Z2Nat.id by lia. rewrite plus_IZR.
  repeat split; nra.
Qed.

(** A loop that is entered returns first what its first body returns. *)
Lemma forUpTo_first {A : Type} (body : R -> option (list A)) fuel x max step out :
  x <= max -> Js.forUpTo fuel x max step body = Some out ->
  exists ys rest, body x = Some ys /\ out = ys ++ rest.
Proof.
  intros Hx. destruct fuel as [| fuel]; simpl; [discriminate |].
  destruct (Js.leb x max) eqn:E; [| apply leb_false in E; lra].
  destruct (body x) as [ys |]; [| discriminate].
  destruct (Js.forUpTo fuel (x + step) max step body) as [rest |]; [| discriminate].
  intros [= <-]. now exists ys, rest.
Qed.

End LoopFacts.

Module TrigFacts.

Import JsFacts.

(** Decide every comparison of the goal by non-linear arithmetic. *)
Ltac ndec :=
  repeat match goal with
  | |- context [Rle_dec ?a ?b] => destruct (Rle_dec a b); try nra
  | |- context [Rlt_dec ?a ?b] => destruct (Rlt_dec a b); try nra
  end.

Lemma atan_nonpos z : z <= 0 -> atan z <= 0.
Proof.
  intros [Hz | ->]; [| rewrite atan_0; lra].
  left. rewrite <- atan_0. now apply atan_increasing.
Qed.

Lemma atan_pos z : 0 < z -> 0 < atan z.
Proof. intros Hz. rewrite <- atan_0. now apply atan_increasing. Qed.

(** [Math.atan2] returns an angle in (-PI, PI]. *)
Lemma atan2_range y x : - PI < Js.atan2 y x <= PI.
Proof.
  pose proof PI_RGT_0 as Hpi. unfold Js.atan2.
  destruct (Rlt_dec 0 x) as [Hx | Hx].
  - pose proof (atan_bound (y / x)). lra.
  - destruct (Rlt_dec x 0) as [Hx' | Hx'].
    + assert (Hi : / x < 0) by now apply Rinv_lt_0_compat.
      destruct (Rle_dec 0 y) as [Hy | Hy].
      * assert (Hq : y / x <= 0) by (unfold Rdiv; nra).
        pose proof (atan_nonpos _ Hq). pose proof (atan_bound (y / x)). lra.
      * assert (Hq : 0 < y / x) by (unfold Rdiv; nra).
        pose proof (atan_pos _ Hq). pose proof (atan_bound (y / x)). lra.
    + destruct (Rlt_dec 0 y); [lra |]. destruct (Rlt_dec y 0); lra.
Qed.

Lemma sin_cos_shift_PI f : sin (f - PI) = - sin f /\ cos (f - PI) = - cos f.
Proof. rewrite sin_minus, cos_minus, sin_PI, cos_PI. split; ring. Qed.

Lemma sin_cos_shift_2PI f : sin (f - 2 * PI) = sin f /\ cos (f - 2 * PI) = cos f.
Proof.
  replace (f - 2 * PI) with (f - PI - PI) by ring.
  destruct (sin_cos_shift_PI (f - PI)) as [-> ->].
  destruct (sin_cos_shift_PI f) as [-> ->]. split; ring.
Qed.

(** [atan2] recovers the angle of a vector given by its length and angle. *)
Lemma atan2_polar s f :
  0 < s -> - PI < f <= PI -> Js.atan2 (s * sin f) (s * cos f) = f.
Proof.
  intros Hs Hf. pose proof PI_RGT_0 as Hpi. unfold Js.atan2.
  destruct (Rlt_dec f (- (PI / 2))) as [Hlow | Hlow].
  - (* third quadrant *)
    assert (Hc : cos f < 0).
    { rewrite <- cos_neg. apply cos_lt_0; lra. }
    assert (Hsn : sin f < 0) by (apply sin_lt_0_var; lra).
    destruct (Rlt_dec 0 (s * cos f)); [nra |].
    destruct (Rlt_dec (s * cos f) 0); [| nra].
    destruct (Rle_dec 0 (s * sin f)); [nra |].
    replace (s * sin f / (s * cos f)) with (tan (f + PI)).
    + rewrite atan_tan by lra. ring.
    + unfold tan. rewrite neg_sin, neg_cos. field. lra.
  - destruct (Rlt_dec f (PI / 2)) as [Hmid | Hmid].
    + destruct (Req_dec f (- (PI / 2))) as [-> | Hne].
      * rewrite cos_neg, sin_neg, cos_PI2, sin_PI2.
        replace (s * 0) with 0 by ring. ndec; try reflexivity.
      * assert (Hc : 0 < cos f) by (apply cos_gt_0; lra).
        destruct (Rlt_dec 0 (s * cos f)); [| nra].
        replace (s * sin f / (s * cos f)) with (tan f) by (unfold tan; field; lra).
        apply atan_tan. lra.
    + destruct (Req_dec f (PI / 2)) as [-> | Hne].
      * rewrite cos_PI2, sin_PI2. replace (s * 0) with 0 by ring.
        ndec; try reflexivity.
      * (* second quadrant *)
        assert (Hc : cos f < 0) by (apply cos_lt_0; lra).
        assert (Hsn : 0 <= sin f) by (apply sin_ge_0; lra).
        destruct (Rlt_dec 0 (s * cos f)); [nra |].
        destruct (Rlt_dec (s * cos f) 0); [| nra].
        destruct (Rle_dec 0 (s * sin f)); [| nra].
        replace (s * sin f / (s * cos f)) with (tan (f - PI)).
        -- rewrite atan_tan by lra. ring.
        -- unfold tan. destruct (sin_cos_shift_PI f) as [-> ->]. field. lra.
Qed.

End TrigFacts.

(** ** The samples of the current field *)

Module FieldFacts.

Import Currents JsFacts Vocabulary CurrentsFacts LoopFacts TrigFacts.

(** Every sample of a grid is the point [mockPoint] builds at a longitude
    and a latitude of the box. *)
Lemma generateMockGrid_points fuel minLon minLat maxLon maxLat
    timestamp resolution phaseOffset speedMultiplier directionOffset points p :
  generateMockGrid fuel (minLon, minLat, maxLon, maxLat) timestamp resolution
    phaseOffset speedMultiplier directionOffset = Some points ->
  In p points ->
  exists lon lat,
    minLon <= lon <= maxLon /\ minLat <= lat <= maxLat /\
    p = mockPoint timestamp phaseOffset speedMultiplier directionOffset lon lat.
Proof.
  unfold generateMockGrid. intros Hrun Hin.
  assert (Hinner : forall lon ys a,
             Js.forUpTo fuel minLat maxLat resolution
               (fun lat => Some [mockPoint timestamp phaseOffset speedMultiplier
                                   directionOffset lon lat]) = Some ys ->
             In a ys ->
             exists lat, minLat <= lat <= maxLat /\
               a = mockPoint timestamp phaseOffset speedMultiplier directionOffset lon lat).
  { intros lon ys a Hys Ha.
    apply (forUpTo_In_range
             (fun lat => Some [mockPoint timestamp phaseOffset speedMultiplier
                                 directionOffset lon lat])
             (fun lat q => q = mockPoint timestamp phaseOffset speedMultiplier
                                 directionOffset lon lat)
             maxLat resolution) with (fuel := fuel) (x := minLat) (out := ys); auto.
    intros lat zs b [= <-] [<- | []]. reflexivity. }
  pose proof (forUpTo_In_range _
                (fun lon q => exists lat, minLat <= lat <= maxLat /\
                   q = mockPoint timestamp phaseOffset speedMultiplier directionOffset lon lat)
                maxLon resolution Hinner fuel minLon points p Hrun Hin) as [lon [Hlon [lat [Hlat Hp]]]].
  now exists lon, lat.
Qed.

Lemma mockPoint_signedSpeed t t' phaseOffset speedMultiplier directionOffset lon lat :
  signedSpeed t' phaseOffset speedMultiplier = signedSpeed t phaseOffset speedMultiplier ->
  mockPoint t' phaseOffset speedMultiplier directionOffset lon lat
  = mockPoint t phaseOffset speedMultiplier directionOffset lon lat.
Proof.
  unfold signedSpeed, mockPoint. cbv zeta. intros H. rewrite !H. reflexivity.
Qed.

(** X3. A grid never samples outside its box: every sample a source returns
    lies at a longitude in [minLon, maxLon] and a latitude in
    [minLat, maxLat]. *)
Theorem grid_samples_inside_bounds fuel minLon minLat maxLon maxLat
    timestamp resolution phaseOffset speedMultiplier directionOffset points p :
  generateMockGrid fuel (minLon, minLat, maxLon, maxLat) timestamp resolution
    phaseOffset speedMultiplier directionOffset = Some points ->
  In p points ->
  minLon <= fst (position p) <= maxLon /\ minLat <= snd (position p) <= maxLat.
Proof.
  intros Hrun Hin.
  destruct (generateMockGrid_points _ _ _ _ _ _ _ _ _ _ _ _ Hrun Hin)
    as (lon & lat & Hlon & Hlat & ->).
  simpl. split; assumption.
Qed.

Lemma grid_samples_inside_bounds_witness :
  4 <= fst (position cmemsSample) <= 4 /\ 52 <= snd (position cmemsSample) <= 52.
Proof.
  apply (grid_samples_inside_bounds 2 4 52 4 52 0 1 0.25 0.8 0.1 [cmemsSample] cmemsSample).
  - exact cmemsSample_grid.
  - left. reflexivity.
Defined.

(** X4. The field has no spatial variation: all samples of one grid carry
    the same vector, speed and colour; they differ by position only. *)
Theorem grid_is_uniform fuel bounds timestamp resolution
    phaseOffset speedMultiplier directionOffset points p q :
  generateMockGrid fuel bounds timestamp resolution
    phaseOffset speedMultiplier directionOffset = Some points ->
  In p points -> In q points ->
  vector p = vector q /\ speed p = speed q /\ color p = color q.
Proof.
  destruct bounds as [[[minLon minLat] maxLon] maxLat]. intros Hrun Hp Hq.
  destruct (generateMockGrid_points _ _ _ _ _ _ _ _ _ _ _ _ Hrun Hp)
    as (lon & lat & _ & _ & ->).
  destruct (generateMockGrid_points _ _ _ _ _ _ _ _ _ _ _ _ Hrun Hq)
    as (lon' & lat' & _ & _ & ->).
  repeat split; reflexivity.
Qed.

(** The four samples rws returns on a box of two by two points. *)
Lemma rws_four_samples :
  getGrid rws 3 (4, 52, 5, 53) 0 (Some 1) =
  Some [mockPoint 0 0 1 0 4 52; mockPoint 0 0 1 0 4 (52 + 1);
        mockPoint 0 0 1 0 (4 + 1) 52; mockPoint 0 0 1 0 (4 + 1) (52 + 1)].
Proof.
  simpl getGrid. unfold generateMockGrid.
  cbn [Js.forUpTo app]. rdec. cbn [Js.forUpTo app]. rdec.
  cbn [Js.forUpTo app]. rdec. reflexivity.
Qed.

Lemma grid_is_uniform_witness :
  vector (mockPoint 0 0 1 0 4 52) = vector (mockPoint 0 0 1 0 (4 + 1) (52 + 1)) /\
  speed (mockPoint 0 0 1 0 4 52) = speed (mockPoint 0 0 1 0 (4 + 1) (52 + 1)) /\
  color (mockPoint 0 0 1 0 4 52) = color (mockPoint 0 0 1 0 (4 + 1) (52 + 1)).
Proof.
  apply (grid_is_uniform 3 (4, 52, 5, 53) 0 1 0 1 0 _ _ _ rws_four_samples).
  - left. reflexivity.
  - right. right. right. left. reflexivity.
Defined.

(** The fields of a sample, in terms of the signed speed of the tide. *)
Lemma mockPoint_fields timestamp phaseOffset speedMultiplier directionOffset lon lat :
  let css := signedSpeed timestamp phaseOffset speedMultiplier in
  let flowDir :=
    (if Js.ltb 0 css then FLOOD_DIR_RAD else FLOOD_DIR_RAD + PI) + directionOffset in
  let p := mockPoint timestamp phaseOffset speedMultiplier directionOffset lon lat in
  position p = (lon, lat) /\
  speed p = Rabs css /\
  eastward p = Rabs css * sin flowDir /\
  northward p = Rabs css * cos flowDir /\
  vector p = (eastward p, northward p, 0, direction p) /\
  color p = getColor (speed p) /\
  direction p =
    (let a := Js.atan2 (eastward p) (northward p) * 180 / PI in
     if Js.ltb a 0 then a + 360 else a).
Proof. cbv zeta. repeat split; reflexivity. Qed.

(** X5. The speed of a sample is the length of its vector: it is not
    negative, its square is the sum of the squares of the eastward and
    northward components, and the third component of the vector is 0. *)
Theorem grid_speed_is_vector_length fuel bounds timestamp resolution
    phaseOffset speedMultiplier directionOffset points p :
  generateMockGrid fuel bounds timestamp resolution
    phaseOffset speedMultiplier directionOffset = Some points ->
  In p points ->
  0 <= speed p /\
  eastward p * eastward p + northward p * northward p = speed p * speed p /\
  vector p = (eastward p, northward p, 0, direction p).
Proof.
  destruct bounds as [[[minLon minLat] maxLon] maxLat]. intros Hrun Hin.
  destruct (generateMockGrid_points _ _ _ _ _ _ _ _ _ _ _ _ Hrun Hin)
    as (lon & lat & _ & _ & ->).
  destruct (mockPoint_fields timestamp phaseOffset speedMultiplier directionOffset lon lat)
    as (_ & Hs & Hu & Hv & Hvec & _).
  rewrite Hu, Hv, Hs. split; [apply Rabs_pos | split; [| exact Hvec]].
  match goal with |- context [sin ?f] => pose proof (sin2_cos2 f) as Hsc end.
  unfold Rsqr in Hsc. nra.
Qed.

Lemma grid_speed_is_vector_length_witness :
  0 <= speed cmemsSample /\
  eastward cmemsSample * eastward cmemsSample
    + northward cmemsSample * northward cmemsSample
    = speed cmemsSample * speed cmemsSample /\
  vector cmemsSample = (eastward cmemsSample, northward cmemsSample, 0, direction cmemsSample).
Proof.
  apply (grid_speed_is_vector_length 2 (4, 52, 4, 52) 0 1 0.25 0.8 0.1 [cmemsSample] cmemsSample).
  - exact cmemsSample_grid.
  - left. reflexivity.
Defined.

Lemma mockPoint_direction_range timestamp phaseOffset speedMultiplier directionOffset lon lat :
  0 <= direction (mockPoint timestamp phaseOffset speedMultiplier directionOffset lon lat) < 360.
Proof.
  destruct (mockPoint_fields timestamp phaseOffset speedMultiplier directionOffset lon lat)
    as (_ & _ & _ & _ & _ & _ & Hd).
  rewrite Hd. cbv zeta.
  pose proof PI_RGT_0 as Hpi.
  match goal with |- context [Js.atan2 ?y ?x] =>
    pose proof (atan2_range y x) as Ha; set (a := Js.atan2 y x) in * end.
  assert (Hdeg : -180 < a * 180 / PI <= 180).
  { assert (Hi : 0 < / PI) by now apply Rinv_0_lt_compat.
    assert (Hone : PI * / PI = 1) by (apply Rinv_r; lra).
    unfold Rdiv. split; nra. }
  destruct (Js.ltb (a * 180 / PI) 0) eqn:E.
  - apply ltb_true in E. lra.
  - apply ltb_false in E. lra.
Qed.

(** X6. The compass bearing of a sample is normalised: it lies in
    [0, 360). *)
Theorem grid_direction_range fuel bounds timestamp resolution
    phaseOffset speedMultiplier directionOffset points p :
  generateMockGrid fuel bounds timestamp resolution
    phaseOffset speedMultiplier directionOffset = Some points ->
  In p points ->
  0 <= direction p < 360.
Proof.
  destruct bounds as [[[minLon minLat] maxLon] maxLat]. intros Hrun Hin.
  destruct (generateMockGrid_points _ _ _ _ _ _ _ _ _ _ _ _ Hrun Hin)
    as (lon & lat & _ & _ & ->).
  apply mockPoint_direction_range.
Qed.

Lemma grid_direction_range_witness : 0 <= direction cmemsSample < 360.
Proof.
  apply (grid_direction_range 2 (4, 52, 4, 52) 0 1 0.25 0.8 0.1 [cmemsSample] cmemsSample).
  - exact cmemsSample_grid.
  - left. reflexivity.
Defined.

(** The bearing computed from a vector of length [s] along the angle [f],
    measured clockwise from north, is [f] in degrees. *)
Lemma bearing_of_flow s f :
  0 < s -> 0 <= f < 2 * PI ->
  (let a := Js.atan2 (s * sin f) (s * cos f) * 180 / PI in
   if Js.ltb a 0 then a + 360 else a) = f * 180 / PI.
Proof.
  intros Hs Hf. pose proof PI_RGT_0 as Hpi. cbv zeta.
  assert (Hi : 0 < / PI) by now apply Rinv_0_lt_compat.
  assert (Hone : PI * / PI = 1) by (apply Rinv_r; lra).
  destruct (Rle_dec f PI) as [Hle | Hgt].
  - rewrite atan2_polar by lra.
    destruct (Js.ltb (f * 180 / PI) 0) eqn:E; [| reflexivity].
    apply ltb_true in E. unfold Rdiv in E. nra.
  - destruct (sin_cos_shift_2PI f) as [Hsin Hcos]. rewrite <- Hsin, <- Hcos.
    rewrite atan2_polar by lra.
    destruct (Js.ltb ((f - 2 * PI) * 180 / PI) 0) eqn:E.
    + field. lra.
    + apply ltb_false in E. unfold Rdiv in E. nra.
Qed.

Lemma mockPoint_direction timestamp phaseOffset speedMultiplier directionOffset lon lat :
  - (PI / 4) <= directionOffset < 3 * (PI / 4) ->
  let css := signedSpeed timestamp phaseOffset speedMultiplier in
  let p := mockPoint timestamp phaseOffset speedMultiplier directionOffset lon lat in
  (0 < css -> direction p = (FLOOD_DIR_RAD + directionOffset) * 180 / PI) /\
  (css < 0 -> direction p = (FLOOD_DIR_RAD + PI + directionOffset) * 180 / PI).
Proof.
  intros Hd. cbv zeta. pose proof PI_RGT_0 as Hpi.
  destruct (mockPoint_fields timestamp phaseOffset speedMultiplier directionOffset lon lat)
    as (_ & _ & Hu & Hv & _ & _ & Hdir).
  rewrite Hdir, Hu, Hv. cbv zeta.
  set (css := signedSpeed timestamp phaseOffset speedMultiplier).
  split; intros Hc.
  - assert (E : Js.ltb 0 css = true) by now apply ltb_true.
    rewrite E. apply bearing_of_flow; [now apply Rabs_pos_lt; lra |].
    unfold FLOOD_DIR_RAD. lra.
  - assert (E : Js.ltb 0 css = false) by (apply ltb_false; lra).
    rewrite E. apply bearing_of_flow; [now apply Rabs_pos_lt; lra |].
    unfold FLOOD_DIR_RAD. lra.
Qed.

Lemma speed_nonzero_cases timestamp phaseOffset speedMultiplier directionOffset lon lat :
  speed (mockPoint timestamp phaseOffset speedMultiplier directionOffset lon lat) <> 0 ->
  0 < signedSpeed timestamp phaseOffset speedMultiplier \/
  signedSpeed timestamp phaseOffset speedMultiplier < 0.
Proof.
  destruct (mockPoint_fields timestamp phaseOffset speedMultiplier directionOffset lon lat)
    as (_ & Hs & _). rewrite Hs. intros Hne.
  destruct (Rtotal_order 0 (signedSpeed timestamp phaseOffset speedMultiplier))
    as [H | [H | H]]; [now left | | now right].
  rewrite <- H, Rabs_R0 in Hne. contradiction.
Qed.

(** X7. The bearing of a moving sample is the direction of the flow: 45
    degrees on the flood and 225 degrees on the ebb for rws, and both turned
    by the 0.1 radian (18/PI degrees) of its direction offset for cmems. *)
Theorem registry_direction_is_flow_bearing (fuel : nat) (bounds : Bounds)
    (timestamp : R) (resolution : option R) (points : list GridPoint) (p : GridPoint) :
  In p points -> speed p <> 0 ->
  (getGrid rws fuel bounds timestamp resolution = Some points ->
     direction p = 45 \/ direction p = 225) /\
  (getGrid cmems fuel bounds timestamp resolution = Some points ->
     direction p = 45 + 18 / PI \/ direction p = 225 + 18 / PI).
Proof.
  destruct bounds as [[[minLon minLat] maxLon] maxLat]. intros Hin Hne.
  pose proof PI_RGT_0 as Hpi. pose proof PI2_3_2 as Hpi3.
  split; simpl getGrid; intros Hrun;
    destruct (generateMockGrid_points _ _ _ _ _ _ _ _ _ _ _ _ Hrun Hin)
      as (lon & lat & _ & _ & ->).
  - destruct (mockPoint_direction timestamp 0 1 0 lon lat) as [Hflood Hebb]; [lra |].
    destruct (speed_nonzero_cases _ _ _ _ _ _ Hne) as [H | H]; [left | right].
    + rewrite (Hflood H). unfold FLOOD_DIR_RAD. field. lra.
    + rewrite (Hebb H). unfold FLOOD_DIR_RAD. field. lra.
  - destruct (mockPoint_direction timestamp 0.25 0.8 0.1 lon lat) as [Hflood Hebb]; [lra |].
    destruct (speed_nonzero_cases _ _ _ _ _ _ Hne) as [H | H]; [left | right].
    + rewrite (Hflood H). unfold FLOOD_DIR_RAD.
      replace 0.1 with (1 / 10) by lra. field. lra.
    + rewrite (Hebb H). unfold FLOOD_DIR_RAD.
      replace 0.1 with (1 / 10) by lra. field. lra.
Qed.

(** At the epoch the tide of rws floods at full speed. *)
Lemma rws_epoch_speed : speed (mockPoint 0 0 1 0 4 52) = 1.5.
Proof.
  destruct (mockPoint_fields 0 0 1 0 4 52) as (_ & Hs & _). rewrite Hs.
  unfold signedSpeed, Js.rem, TIDE_PERIOD_MS, MAX_CURRENT_SPEED.
  replace (0 / (12.42 * 3600 * 1000)) with 0 by (field; lra).
  rewrite trunc_small by lra.
  replace (((0 - 12.42 * 3600 * 1000 * 0) / (12.42 * 3600 * 1000) + 0) * 2 * PI) with 0
    by (simpl; field; lra).
  rewrite cos_0. rewrite Rabs_pos_eq; lra.
Qed.

Lemma rws_epoch_grid :
  getGrid rws 2 (4, 52, 4, 52) 0 (Some 1) = Some [mockPoint 0 0 1 0 4 52].
Proof. simpl getGrid. unfold generateMockGrid. cbn [Js.forUpTo app]. rdec. cbn [Js.forUpTo app]. rdec. reflexivity. Qed.

Lemma registry_direction_is_flow_bearing_witness :
  direction (mockPoint 0 0 1 0 4 52) = 45 \/ direction (mockPoint 0 0 1 0 4 52) = 225.
Proof.
  apply (proj1 (registry_direction_is_flow_bearing 2 (4, 52, 4, 52) 0 (Some 1)
                  [mockPoint 0 0 1 0 4 52] (mockPoint 0 0 1 0 4 52)
                  (or_introl eq_refl)
                  ltac:(rewrite rws_epoch_speed; lra))).
  exact rws_epoch_grid.
Defined.




Lemma signedSpeed_half_period timestamp phaseOffset speedMultiplier :
  0 <= timestamp ->
  signedSpeed (timestamp + TIDE_PERIOD_MS / 2) phaseOffset speedMultiplier
  = - signedSpeed timestamp phaseOffset speedMultiplier.
Proof.
  intros Ht.
  assert (HP : 0 < TIDE_PERIOD_MS) by (unfold TIDE_PERIOD_MS; lra).
  unfold signedSpeed.
  set (r := Js.rem timestamp TIDE_PERIOD_MS).
  set (a := (r / TIDE_PERIOD_MS + phaseOffset) * 2 * PI).
  destruct (rem_add_half timestamp TIDE_PERIOD_MS Ht HP) as [-> | ->]; fold r.
  - replace (((r + TIDE_PERIOD_MS / 2) / TIDE_PERIOD_MS + phaseOffset) * 2 * PI)
      with (a + PI) by (unfold a; field; lra).
    rewrite neg_cos. ring.
  - replace (((r - TIDE_PERIOD_MS / 2) / TIDE_PERIOD_MS + phaseOffset) * 2 * PI)
      with (a - PI) by (unfold a; field; lra).
    destruct (sin_cos_shift_PI a) as [_ ->]. ring.
Qed.

Lemma mockPoint_reversed t t' phaseOffset speedMultiplier directionOffset lon lat :
  signedSpeed t' phaseOffset speedMultiplier = - signedSpeed t phaseOffset speedMultiplier ->
  reversed (mockPoint t phaseOffset speedMultiplier directionOffset lon lat)
           (mockPoint t' phaseOffset speedMultiplier directionOffset lon lat).
Proof.
  intros H.
  destruct (mockPoint_fields t phaseOffset speedMultiplier directionOffset lon lat)
    as (Hp & Hs & Hu & Hv & _ & Hc & _).
  destruct (mockPoint_fields t' phaseOffset speedMultiplier directionOffset lon lat)
    as (Hp' & Hs' & Hu' & Hv' & _ & Hc' & _).
  assert (Hspeed : speed (mockPoint t' phaseOffset speedMultiplier directionOffset lon lat)
                   = speed (mockPoint t phaseOffset speedMultiplier directionOffset lon lat)).
  { rewrite Hs, Hs', H. apply Rabs_Ropp. }
  unfold reversed. rewrite Hp, Hp', Hc, Hc', Hspeed.
  repeat split; try reflexivity.
  - rewrite Hu, Hu', H, Rabs_Ropp.
    set (css := signedSpeed t phaseOffset speedMultiplier).
    destruct (Rtotal_order 0 css) as [Hpos | [Hz | Hneg]].
    + replace (Js.ltb 0 css) with true by (symmetry; now apply ltb_true).
      replace (Js.ltb 0 (- css)) with false by (symmetry; apply ltb_false; lra).
      replace (FLOOD_DIR_RAD + PI + directionOffset)
        with (FLOOD_DIR_RAD + directionOffset + PI) by ring.
      rewrite neg_sin. ring.
    + rewrite <- Hz, Rabs_R0. ring.
    + replace (Js.ltb 0 css) with false by (symmetry; apply ltb_false; lra).
      replace (Js.ltb 0 (- css)) with true by (symmetry; apply ltb_true; lra).
      replace (FLOOD_DIR_RAD + PI + directionOffset)
        with (FLOOD_DIR_RAD + directionOffset + PI) by ring.
      rewrite neg_sin. ring.
  - rewrite Hv, Hv', H, Rabs_Ropp.
    set (css := signedSpeed t phaseOffset speedMultiplier).
    destruct (Rtotal_order 0 css) as [Hpos | [Hz | Hneg]].
    + replace (Js.ltb 0 css) with true by (symmetry; now apply ltb_true).
      replace (Js.ltb 0 (- css)) with false by (symmetry; apply ltb_false; lra).
      replace (FLOOD_DIR_RAD + PI + directionOffset)
        with (FLOOD_DIR_RAD + directionOffset + PI) by ring.
      rewrite neg_cos. ring.
    + rewrite <- Hz, Rabs_R0. ring.
    + replace (Js.ltb 0 css) with false by (symmetry; apply ltb_false; lra).
      replace (Js.ltb 0 (- css)) with true by (symmetry; apply ltb_true; lra).
      replace (FLOOD_DIR_RAD + PI + directionOffset)
        with (FLOOD_DIR_RAD + directionOffset + PI) by ring.
      rewrite neg_cos. ring.
Qed.

(** X10. Half a tidal period later the tide has turned: sample by sample,
    the grid at [t + TIDE_PERIOD_MS / 2] has the same positions, speeds and
    colours as the grid at [t >= 0], and the opposite vectors. *)
Theorem grid_half_period_reverses fuel bounds t resolution
    phaseOffset speedMultiplier directionOffset points points' :
  0 <= t ->
  generateMockGrid fuel bounds t resolution
    phaseOffset speedMultiplier directionOffset = Some points ->
  generateMockGrid fuel bounds (t + TIDE_PERIOD_MS / 2) resolution
    phaseOffset speedMultiplier directionOffset = Some points' ->
  Forall2 reversed points points'.
Proof.
  destruct bounds as [[[minLon minLat] maxLon] maxLat]. unfold generateMockGrid.
  intros Ht. apply forUpTo_Forall2. intros lon ys zs.
  apply forUpTo_Forall2. intros lat ys' zs' [= <-] [= <-].
  constructor; [| constructor].
  apply mockPoint_reversed. now apply signedSpeed_half_period.
Qed.

Lemma rws_half_period_grid :
  getGrid rws 2 (4, 52, 4, 52) (0 + TIDE_PERIOD_MS / 2) (Some 1)
  = Some [mockPoint (0 + TIDE_PERIOD_MS / 2) 0 1 0 4 52].
Proof. simpl getGrid. unfold generateMockGrid. cbn [Js.forUpTo app]. rdec. cbn [Js.forUpTo app]. rdec. reflexivity. Qed.

Lemma grid_half_period_reverses_witness :
  Forall2 reversed [mockPoint 0 0 1 0 4 52] [mockPoint (0 + TIDE_PERIOD_MS / 2) 0 1 0 4 52].
Proof.
  apply (grid_half_period_reverses 2 (4, 52, 4, 52) 0 1 0 1 0).
  - lra.
  - exact rws_epoch_grid.
  - exact rws_half_period_grid.
Defined.

(** X11. With a resolution of zero or less the sampler never returns on a
    box with [minLon <= maxLon]: the longitude never passes [maxLon]. *)
Theorem grid_needs_positive_resolution fuel minLon minLat maxLon maxLat
    timestamp resolution phaseOffset speedMultiplier directionOffset :
  resolution <= 0 -> minLon <= maxLon ->
  generateMockGrid fuel (minLon, minLat, maxLon, maxLat) timestamp resolution
    phaseOffset speedMultiplier directionOffset = None.
Proof.
  intros Hr Hb. unfold generateMockGrid. now apply forUpTo_diverges.
Qed.

Lemma grid_needs_positive_resolution_witness :
  generateMockGrid 1000 (4, 52, 5, 53) 0 0 0 1 0 = None.
Proof.
  apply (grid_needs_positive_resolution 1000 4 52 5 53 0 0 0 1 0); lra.
Defined.

(** The number of samples of a grid that was returned. *)
Lemma generateMockGrid_count fuel minLon minLat maxLon maxLat
    timestamp resolution phaseOffset speedMultiplier directionOffset points :
  0 < resolution -> minLon <= maxLon -> minLat <= maxLat ->
  generateMockGrid fuel (minLon, minLat, maxLon, maxLat) timestamp resolution
    phaseOffset speedMultiplier directionOffset = Some points ->
  Z.of_nat (List.length points) =
    ((Int_part ((maxLon - minLon) / resolution) + 1)
     * (Int_part ((maxLat - minLat) / resolution) + 1))%Z.
Proof.
  intros Hr Hlon Hlat. unfold generateMockGrid. intros Hrun.
  set (k := Z.to_nat (Int_part ((maxLat - minLat) / resolution) + 1)).
  assert (Hk : Z.of_nat k = (Int_part ((maxLat - minLat) / resolution) + 1)%Z).
  { unfold k. apply Z2Nat.id.
    assert (Hq : 0 <= (maxLat - minLat) / resolution)
      by (apply Rmult_le_pos; [lra | left; now apply Rinv_0_lt_compat]).
    destruct (base_Int_part ((maxLat - minLat) / resolution)) as [Hlo Hhi].
    destruct (Z_le_gt_dec 0 (Int_part ((maxLat - minLat) / resolution) + 1)) as [H | H]; [exact H |].
    assert (IZR (Int_part ((maxLat - minLat) / resolution)) <= -2) by (apply IZR_le; lia). lra. }
  assert (Hconst : forall lon ys,
             Js.forUpTo fuel minLat maxLat resolution
               (fun lat => Some [mockPoint timestamp phaseOffset speedMultiplier
                                   directionOffset lon lat]) = Some ys ->
             List.length ys = k).
  { intros lon ys Hys. apply Nat2Z.inj. rewrite Hk.
    apply (forUpTo_length _ _ _ _ _ _ Hr Hlat Hys). }
  rewrite (forUpTo_length_const _ k fuel minLon maxLon resolution points Hr Hlon Hconst Hrun).
  now rewrite Hk.
Qed.

(** X12. On a box that is not inverted and with a positive resolution, the
    sampler returns, given enough fuel, and the number of its samples is the
    number of longitude steps times the number of latitude steps, each the
    integer part of the span over the resolution, plus one. *)
Theorem grid_sample_count minLon minLat maxLon maxLat
    timestamp resolution phaseOffset speedMultiplier directionOffset :
  0 < resolution -> minLon <= maxLon -> minLat <= maxLat ->
  exists fuel0 : nat, forall fuel, (fuel0 <= fuel)%nat ->
    exists points,
      generateMockGrid fuel (minLon, minLat, maxLon, maxLat) timestamp resolution
        phaseOffset speedMultiplier directionOffset = Some points /\
      Z.of_nat (List.length points) =
        ((Int_part ((maxLon - minLon) / resolution) + 1)
         * (Int_part ((maxLat - minLat) / resolution) + 1))%Z.
Proof.
  intros Hr Hlon Hlat.
  destruct (CurrentsFacts.generateMockGrid_returns (minLon, minLat, maxLon, maxLat)
              timestamp resolution phaseOffset speedMultiplier directionOffset Hr)
    as [fuel0 Hret].
  exists fuel0. intros fuel Hfuel. destruct (Hret fuel Hfuel) as [points Hrun].
  exists points. split; [exact Hrun |].
  now apply (generateMockGrid_count fuel minLon minLat maxLon maxLat
               timestamp resolution phaseOffset speedMultiplier directionOffset).
Qed.

(** The box [4, 52, 5, 53] at a resolution of one degree. *)
Lemma grid_sample_count_witness :
  exists fuel0 : nat, forall fuel, (fuel0 <= fuel)%nat ->
    exists points,
      generateMockGrid fuel (4, 52, 5, 53) 0 1 0 1 0 = Some points /\
      Z.of_nat (List.length points) =
        ((Int_part ((5 - 4) / 1) + 1) * (Int_part ((53 - 52) / 1) + 1))%Z.
Proof.
  apply (grid_sample_count 4 52 5 53 0 1 0 1 0); lra.
Defined.

End FieldFacts.

(** ** The speed bound of cmems in double precision *)

Module DoubleFacts.

Import JsFacts Vocabulary LoopFacts.


Import Floats.PrimFloat.
#[local] Set Warnings "-inexact-float".


End DoubleFacts.

(** ** The lines of the reference grid *)

Module GridShape.

Import Grid JsFacts Vocabulary LoopFacts.

(** X13. Whatever the box and the spacing, the lines [generateGrid] returns
    are first latitude lines, each running from [minLon] to [maxLon] at a
    latitude of the box, then longitude lines, each running from [minLat] to
    [maxLat] at a longitude of the box. *)
Theorem generateGrid_lines_span_the_box fuel minLon minLat maxLon maxLat spacingNm lines :
  generateGrid fuel (minLon, minLat, maxLon, maxLat) spacingNm = Some lines ->
  exists horizontal vertical,
    lines = horizontal ++ vertical /\
    (forall l, In l horizontal ->
       exists lat, minLat <= lat <= maxLat /\ l = hline minLon maxLon lat) /\
    (forall l, In l vertical ->
       exists lon, minLon <= lon <= maxLon /\ l = vline minLat maxLat lon).
Proof.
  unfold generateGrid, latLines, lonLines.
  set (s := match spacingNm with Some s => s | None => 0.1 end).
  destruct (Js.forUpTo fuel minLat maxLat (latSpacing s) _) as [h |] eqn:Eh; [| discriminate].
  destruct (Js.forUpToBy fuel minLon maxLon (lonSpacing s minLat maxLat) _) as [v |] eqn:Ev;
    [| discriminate].
  intros [= <-]. exists h, v. split; [reflexivity | split]; intros l Hl.
  - apply (forUpTo_In_range
             (fun lat => Some [ {| path := [(minLon, lat); (maxLon, lat)] |} ])
             (fun lat l => l = hline minLon maxLon lat) maxLat (latSpacing s))
      with (fuel := fuel) (x := minLat) (out := h) (a := l); auto.
    intros lat ys a [= <-] [<- | []]. reflexivity.
  - apply (forUpToBy_In_range
             (fun lon => Some [ {| path := [(lon, minLat); (lon, maxLat)] |} ])
             (fun lon l => l = vline minLat maxLat lon) maxLon
             (lonSpacing s minLat maxLat))
      with (fuel := fuel) (x := minLon) (out := v) (a := l); auto.
    intros lon ys a [= <-] [<- | []]. reflexivity.
Qed.

Lemma cos_unit_box : 0 < cos (centerLatRad 0 1) < 1.
Proof.
  pose proof PI_RGT_0 as Hpi. pose proof PI_4 as Hpi4. unfold centerLatRad. split.
  - apply cos_gt_0; lra.
  - apply Rlt_le_trans with (cos 0); [apply cos_decreasing_1; lra | rewrite cos_0; lra].
Qed.

(** The grid of the box [0, 0, 1, 1] at 60 nautical miles: the latitude
    lines at 0 and 1 and, the longitude step being a little more than one
    degree, the longitude line at 0. *)
Lemma unit_box_grid :
  generateGrid 3 (0, 0, 1, 1) (Some 60) = Some [hline 0 1 0; hline 0 1 (0 + 60 / 60); vline 0 1 0].
Proof.
  pose proof cos_unit_box as Hc.
  assert (Hs : 1 < lonStep 60 0 1).
  { unfold lonStep. set (c := cos (centerLatRad 0 1)) in *.
    replace (60 / (60 * c)) with (/ c) by (field; lra).
    rewrite <- Rinv_1 at 1. apply Rinv_lt_contravar; lra. }
  unfold generateGrid, latLines, lonLines, latSpacing.
  rewrite GridFacts.lonSpacing_finite by lra.
  set (s := lonStep 60 0 1) in *.
  cbn [Js.forUpToBy Js.forUpTo app]. rdec. reflexivity.
Qed.

Lemma generateGrid_lines_span_the_box_witness :
  exists horizontal vertical,
    [hline 0 1 0; hline 0 1 (0 + 60 / 60); vline 0 1 0] = horizontal ++ vertical /\
    (forall l, In l horizontal -> exists lat, 0 <= lat <= 1 /\ l = hline 0 1 lat) /\
    (forall l, In l vertical -> exists lon, 0 <= lon <= 1 /\ l = vline 0 1 lon).
Proof.
  apply (generateGrid_lines_span_the_box 3 0 0 1 1 (Some 60)). exact unit_box_grid.
Defined.

(** What [generateGrid] returns on a box that is not inverted, with a
    positive spacing and a centre latitude whose cosine is positive. *)
Lemma generateGrid_enumerated fuel minLon minLat maxLon maxLat spacingNm lines :
  0 < spacingNm -> 0 < cos (centerLatRad minLat maxLat) ->
  minLon <= maxLon -> minLat <= maxLat ->
  generateGrid fuel (minLon, minLat, maxLon, maxLat) (Some spacingNm) = Some lines ->
  lines =
    map (fun k => hline minLon maxLon (minLat + INR k * latSpacing spacingNm))
        (seq 0 (stepCount minLat maxLat (latSpacing spacingNm)))
    ++ map (fun k => vline minLat maxLat (minLon + INR k * lonStep spacingNm minLat maxLat))
           (seq 0 (stepCount minLon maxLon (lonStep spacingNm minLat maxLat)))
  /\ Z.of_nat (List.length lines) =
       ((Int_part ((maxLat - minLat) / latSpacing spacingNm) + 1)
        + (Int_part ((maxLon - minLon) / lonStep spacingNm minLat maxLat) + 1))%Z.
Proof.
  intros Hs Hc Hlon Hlat.
  assert (Hls : 0 < latSpacing spacingNm) by (unfold latSpacing; lra).
  assert (Hos : 0 < lonStep spacingNm minLat maxLat).
  { unfold lonStep. apply Rdiv_lt_0_compat; lra. }
  unfold generateGrid, latLines, lonLines.
  rewrite GridFacts.lonSpacing_finite by lra. cbn [Js.forUpToBy].
  destruct (Js.forUpTo fuel minLat maxLat (latSpacing spacingNm) _) as [h |] eqn:Eh;
    [| discriminate].
  destruct (Js.forUpTo fuel minLon maxLon (lonStep spacingNm minLat maxLat) _) as [v |] eqn:Ev;
    [| discriminate].
  intros [= <-].
  destruct (stepCount_spec minLat maxLat _ Hls Hlat) as (A1 & A2 & A3).
  destruct (stepCount_spec minLon maxLon _ Hos Hlon) as (B1 & B2 & B3).
  apply (forUpTo_enumerate (fun lat => {| path := [(minLon, lat); (maxLon, lat)] |}) maxLat _ Hls)
    with (n := stepCount minLat maxLat (latSpacing spacingNm)) in Eh; [| exact A1 | now right].
  apply (forUpTo_enumerate (fun lon => {| path := [(lon, minLat); (lon, maxLat)] |}) maxLon _ Hos)
    with (n := stepCount minLon maxLon (lonStep spacingNm minLat maxLat)) in Ev;
    [| exact B1 | now right].
  subst h v. split; [reflexivity |].
  rewrite length_app, !length_map, !length_seq, Nat2Z.inj_add, A3, B3. reflexivity.
Qed.

(** X14. On a box that is not inverted, with a positive spacing and a centre
    latitude whose cosine is positive, [generateGrid] returns, given enough
    fuel, an evenly spaced grid: the latitude lines at
    [minLat + k * spacingNm / 60] and the longitude lines at
    [minLon + k * spacingNm / (60 * cos centre)], for k from 0 to the
    integer part of the span over the step. *)
Theorem generateGrid_evenly_spaced minLon minLat maxLon maxLat spacingNm :
  0 < spacingNm -> 0 < cos (centerLatRad minLat maxLat) ->
  minLon <= maxLon -> minLat <= maxLat ->
  exists fuel0 : nat, forall fuel, (fuel0 <= fuel)%nat ->
    exists lines,
      generateGrid fuel (minLon, minLat, maxLon, maxLat) (Some spacingNm) = Some lines /\
      lines =
        map (fun k => hline minLon maxLon (minLat + INR k * latSpacing spacingNm))
            (seq 0 (stepCount minLat maxLat (latSpacing spacingNm)))
        ++ map (fun k => vline minLat maxLat (minLon + INR k * lonStep spacingNm minLat maxLat))
               (seq 0 (stepCount minLon maxLon (lonStep spacingNm minLat maxLat))) /\
      lonSpacing spacingNm minLat maxLat = Js.Finite (lonStep spacingNm minLat maxLat) /\
      Z.of_nat (List.length lines) =
        ((Int_part ((maxLat - minLat) / latSpacing spacingNm) + 1)
         + (Int_part ((maxLon - minLon) / lonStep spacingNm minLat maxLat) + 1))%Z.
Proof.
  intros Hs Hc Hlon Hlat.
  destruct (GridFacts.generateGrid_returns (minLon, minLat, maxLon, maxLat) spacingNm Hs)
    as [fuel0 Hret]; [lra |].
  exists fuel0. intros fuel Hfuel. destruct (Hret fuel Hfuel) as [lines Hrun].
  exists lines.
  destruct (generateGrid_enumerated fuel minLon minLat maxLon maxLat spacingNm lines
              Hs Hc Hlon Hlat Hrun) as [Hlines Hcount].
  repeat split; try assumption.
  apply GridFacts.lonSpacing_finite. lra.
Qed.

(** The box [0, 0, 1, 1] at 60 nautical miles. *)
Lemma generateGrid_evenly_spaced_witness :
  exists fuel0 : nat, forall fuel, (fuel0 <= fuel)%nat ->
    exists lines,
      generateGrid fuel (0, 0, 1, 1) (Some 60) = Some lines /\
      lines =
        map (fun k => hline 0 1 (0 + INR k * latSpacing 60))
            (seq 0 (stepCount 0 1 (latSpacing 60)))
        ++ map (fun k => vline 0 1 (0 + INR k * lonStep 60 0 1))
               (seq 0 (stepCount 0 1 (lonStep 60 0 1))) /\
      lonSpacing 60 0 1 = Js.Finite (lonStep 60 0 1) /\
      Z.of_nat (List.length lines) =
        ((Int_part ((1 - 0) / latSpacing 60) + 1)
         + (Int_part ((1 - 0) / lonStep 60 0 1) + 1))%Z.
Proof.
  apply (generateGrid_evenly_spaced 0 0 1 1 60); try lra.
  destruct cos_unit_box. lra.
Defined.

(** X15. With a spacing of zero or less [generateGrid] never returns on a
    box with [minLat <= maxLat]: the latitude never passes [maxLat]. *)
Theorem generateGrid_needs_positive_spacing fuel minLon minLat maxLon maxLat spacingNm :
  spacingNm <= 0 -> minLat <= maxLat ->
  generateGrid fuel (minLon, minLat, maxLon, maxLat) (Some spacingNm) = None.
Proof.
  intros Hs Hb. unfold generateGrid, latLines.
  rewrite forUpTo_diverges; [reflexivity | unfold latSpacing; lra | exact Hb].
Qed.

Lemma generateGrid_needs_positive_spacing_witness :
  generateGrid 1000 (3.8, 51.8, 4.7, 52.4) (Some 0) = None.
Proof.
  apply (generateGrid_needs_positive_spacing 1000 3.8 51.8 4.7 52.4 0); lra.
Defined.

End GridShape.

(** ** What the loader keeps *)

Module LoaderFacts.

Import Gpx Vocabulary GpxFacts.

Lemma find_first {A : Type} (pred : A -> bool) (before after : list A) (x : A) :
  (forall y, In y before -> pred y = false) -> pred x = true ->
  find pred (before ++ x :: after) = Some x.
Proof.
  intros Hb Hx. induction before as [| b before IH]; simpl.
  - now rewrite Hx.
  - rewrite (Hb b (or_introl eq_refl)). apply IH. intros y Hy. apply Hb. now right.
Qed.

Lemma find_none_all {A : Type} (pred : A -> bool) (l : list A) :
  (forall y, In y l -> pred y = false) -> find pred l = None.
Proof.
  intros H. induction l as [| a l IH]; simpl; [reflexivity |].
  rewrite (H a (or_introl eq_refl)). apply IH. intros y Hy. apply H. now right.
Qed.

(** X16. Only the first LineString feature of the file is loaded: the
    features before it that are not LineStrings and every feature after it
    (further tracks included) leave the track points unchanged; and a file
    without any LineString gives no track point and start and end times 0. *)
Theorem parseGPX_loads_first_track_only :
  (forall (before after : list Feature) (track : Feature) (coords : list Position),
     (forall f, In f before -> isLineString f = false) ->
     geometry track = LineString coords ->
     trackPoints (parseGPX {| features := before ++ track :: after |})
       = forEachCoord 0 coords (coordTimesOf track)) /\
  (forall fs : list Feature,
     (forall f, In f fs -> isLineString f = false) ->
     trackPoints (parseGPX {| features := fs |}) = [] /\
     startTime (parseGPX {| features := fs |}) = Js.Num 0 /\
     endTime (parseGPX {| features := fs |}) = Js.Num 0).
Proof.
  split.
  - intros before after track coords Hbefore Hgeo.
    unfold parseGPX. cbn [trackPoints features].
    rewrite find_first; [| exact Hbefore | unfold isLineString; now rewrite Hgeo].
    rewrite Hgeo. reflexivity.
  - intros fs Hfs. unfold parseGPX. cbn [trackPoints startTime endTime features].
    rewrite find_none_all by exact Hfs. repeat split; reflexivity.
Qed.

Lemma parseGPX_loads_first_track_only_witness :
  trackPoints
    (parseGPX
       {| features :=
            [ {| geometry := OtherGeometry "Point"; properties := None |} ]
            ++ {| geometry := LineString [ {| coord0 := 4.27; coord1 := 52.11; coord2 := None |} ];
                  properties :=
                    Some {| coordTimes :=
                              Some [ Some {| str := "1970-01-01T00:00:00Z";
                                             dateGetTime := Js.Num 0 |} ] |} |}
            :: [ {| geometry := LineString [ {| coord0 := 5; coord1 := 53; coord2 := None |} ];
                    properties := None |} ] |})
  = [ hourStart ].
Proof.
  rewrite (proj1 parseGPX_loads_first_track_only
             [ {| geometry := OtherGeometry "Point"; properties := None |} ]
             [ {| geometry := LineString [ {| coord0 := 5; coord1 := 53; coord2 := None |} ];
                  properties := None |} ]
             _ [ {| coord0 := 4.27; coord1 := 52.11; coord2 := None |} ]).
  - reflexivity.
  - intros f [<- | []]. reflexivity.
  - reflexivity.
Defined.

Lemma forEachCoord_origin times coords :
  forall index p,
    In p (forEachCoord index coords times) ->
    exists k coord timeStr,
      nth_error coords k = Some coord /\
      nth_error times (index + k) = Some (Some timeStr) /\
      str timeStr <> ""%string /\
      p = pointOf coord timeStr.
Proof.
  induction coords as [| c coords IH]; intros index p; simpl; [intros [] |].
  unfold truthyTime at 1.
  destruct (nth_error times index) as [[timeStr |] |] eqn:En.
  - destruct (String.eqb_spec (str timeStr) "") as [Hs | Hs].
    + intros Hin. destruct (IH _ _ Hin) as (k & coord & ts & H1 & H2 & H3 & H4).
      exists (S k), coord, ts. rewrite <- Nat.add_succ_comm. auto.
    + intros [<- | Hin].
      * exists 0%nat, c, timeStr. rewrite Nat.add_0_r. auto.
      * destruct (IH _ _ Hin) as (k & coord & ts & H1 & H2 & H3 & H4).
        exists (S k), coord, ts. rewrite <- Nat.add_succ_comm. auto.
  - intros Hin. destruct (IH _ _ Hin) as (k & coord & ts & H1 & H2 & H3 & H4).
    exists (S k), coord, ts. rewrite <- Nat.add_succ_comm. auto.
  - intros Hin. destruct (IH _ _ Hin) as (k & coord & ts & H1 & H2 & H3 & H4).
    exists (S k), coord, ts. rewrite <- Nat.add_succ_comm. auto.
Qed.

Lemma forEachCoord_length_le times coords :
  forall index, (List.length (forEachCoord index coords times) <= List.length coords)%nat.
Proof.
  induction coords as [| c coords IH]; intros index; simpl; [lia |].
  specialize (IH (S index)). destruct (truthyTime times index); simpl; lia.
Qed.

(** X17. Coordinates and times are paired by index: every track point comes
    from a coordinate of the track and the non-empty time string at the same
    index, with that coordinate's longitude and latitude; so there are never
    more track points than coordinates. *)
Theorem parseGPX_pairs_by_index (coords : list Position) (times : list (option TimeStr))
    (p : TrackPoint) :
  In p (trackPoints (parseGPX (gpxOf coords times))) ->
  (exists k coord timeStr,
     nth_error coords k = Some coord /\
     nth_error times k = Some (Some timeStr) /\
     str timeStr <> ""%string /\
     longitude p = coord0 coord /\ latitude p = coord1 coord /\
     timestamp p = dateGetTime timeStr) /\
  (List.length (trackPoints (parseGPX (gpxOf coords times))) <= List.length coords)%nat.
Proof.
  rewrite parseGPX_gpxOf. intros Hin. split; [| apply forEachCoord_length_le].
  destruct (forEachCoord_origin _ _ _ _ Hin) as (k & coord & ts & H1 & H2 & H3 & ->).
  exists k, coord, ts. simpl in H2. repeat split; auto.
Qed.

Lemma parseGPX_pairs_by_index_witness :
  (exists k coord timeStr,
     nth_error [ {| coord0 := 4.27; coord1 := 52.11; coord2 := None |};
                 {| coord0 := 4.30; coord1 := 52.12; coord2 := None |} ] k = Some coord /\
     nth_error [ Some {| str := "1970-01-01T00:00:00Z"; dateGetTime := Js.Num 0 |};
                 Some {| str := "1970-01-01T01:00:00Z"; dateGetTime := Js.Num 3600000 |} ] k
       = Some (Some timeStr) /\
     str timeStr <> ""%string /\
     longitude hourEnd = coord0 coord /\ latitude hourEnd = coord1 coord /\
     timestamp hourEnd = dateGetTime timeStr) /\
  (List.length (trackPoints (parseGPX hourTrack)) <= 2)%nat.
Proof.
  apply (parseGPX_pairs_by_index
           [ {| coord0 := 4.27; coord1 := 52.11; coord2 := None |};
             {| coord0 := 4.30; coord1 := 52.12; coord2 := None |} ]
           [ Some {| str := "1970-01-01T00:00:00Z"; dateGetTime := Js.Num 0 |};
             Some {| str := "1970-01-01T01:00:00Z"; dateGetTime := Js.Num 3600000 |} ]
           hourEnd).
  right. left. reflexivity.
Defined.

Lemma forEachCoord_all_timed coords :
  forall index (before : list (option TimeStr)) (timeStrs : list TimeStr),
    List.length before = index ->
    List.length timeStrs = List.length coords ->
    Forall (fun timeStr => str timeStr <> ""%string) timeStrs ->
    forEachCoord index coords (before ++ map Some timeStrs)
      = map (fun ct => pointOf (fst ct) (snd ct)) (combine coords timeStrs).
Proof.
  induction coords as [| c coords IH]; intros index before timeStrs Hb Hlen Hall; [reflexivity |].
  destruct timeStrs as [| ts timeStrs]; [discriminate |].
  inversion Hall as [| ? ? Hts Hrest]; subst.
  simpl. unfold truthyTime at 1.
  rewrite nth_error_app2 by lia. rewrite Nat.sub_diag. simpl.
  destruct (String.eqb_spec (str ts) ""); [contradiction |].
  f_equal.
  replace (before ++ Some ts :: map Some timeStrs)
    with ((before ++ [Some ts]) ++ map Some timeStrs) by (rewrite <- app_assoc; reflexivity).
  apply IH; [rewrite length_app; simpl; lia | simpl in Hlen; lia | exact Hrest].
Qed.

(** X18. When every coordinate of the track has a non-empty time string,
    the loader keeps them all, in order: one track point per coordinate,
    with its longitude and latitude and the timestamp of its time string. *)
Theorem parseGPX_keeps_timed_track (coords : list Position) (timeStrs : list TimeStr) :
  List.length timeStrs = List.length coords ->
  Forall (fun timeStr => str timeStr <> ""%string) timeStrs ->
  trackPoints (parseGPX (gpxOf coords (map Some timeStrs)))
    = map (fun ct => pointOf (fst ct) (snd ct)) (combine coords timeStrs) /\
  map getLonLat (trackPoints (parseGPX (gpxOf coords (map Some timeStrs))))
    = map (fun coord => (coord0 coord, coord1 coord)) coords /\
  map timestamp (trackPoints (parseGPX (gpxOf coords (map Some timeStrs))))
    = map dateGetTime timeStrs.
Proof.
  intros Hlen Hall. rewrite parseGPX_gpxOf.
  pose proof (forEachCoord_all_timed coords 0 [] timeStrs eq_refl Hlen Hall) as Hkeep.
  change ([] ++ map Some timeStrs) with (map Some timeStrs) in Hkeep. rewrite Hkeep.
  split; [reflexivity |]. rewrite !map_map. simpl.
  clear Hall Hkeep. revert timeStrs Hlen.
  induction coords as [| c coords IH]; intros [| ts timeStrs] Hlen; try discriminate.
  - split; reflexivity.
  - simpl in Hlen. destruct (IH timeStrs ltac:(lia)) as [H1 H2].
    simpl. now rewrite H1, H2.
Qed.

Lemma parseGPX_keeps_timed_track_witness :
  trackPoints (parseGPX hourTrack) = [hourStart; hourEnd].
Proof.
  apply (proj1 (parseGPX_keeps_timed_track
           [ {| coord0 := 4.27; coord1 := 52.11; coord2 := None |};
             {| coord0 := 4.30; coord1 := 52.12; coord2 := None |} ]
           [ {| str := "1970-01-01T00:00:00Z"; dateGetTime := Js.Num 0 |};
             {| str := "1970-01-01T01:00:00Z"; dateGetTime := Js.Num 3600000 |} ]
           eq_refl
           ltac:(repeat constructor; discriminate))).
Defined.

End LoaderFacts.

(** ** The marker, the clock and the currents layer *)

Module PlaybackFacts.

Import Gpx RaceMap Layers JsFacts Vocabulary LoopFacts RaceMapFacts.






Lemma split_first {A : Type} (pred : A -> bool) (l : list A) :
  (exists before x after,
     l = before ++ x :: after /\
     (forall y, In y before -> pred y = false) /\ pred x = true) \/
  (forall y, In y l -> pred y = false).
Proof.
  induction l as [| a l IH]; [right; intros y [] |].
  destruct (pred a) eqn:Ea.
  - left. exists [], a, l. repeat split; auto. intros y [].
  - destruct IH as [(before & x & after & -> & Hb & Hx) | Hnone].
    + left. exists (a :: before), x, after. repeat split; auto.
      intros y [<- | Hy]; auto.
    + right. intros y [<- | Hy]; auto.
Qed.

(** X20. A track with at least one point always has its marker: at every
    current time, a number or not, the lookup returns a point of the track
    and the marker layer holds exactly that point. *)
Theorem marker_is_a_track_point (points : list TrackPoint) (t : Js.num) :
  points <> [] ->
  exists p,
    currentPoint points t = Some p /\ In p points /\
    markerLayer points t = Some {| layerId := "marker-layer"; data := [p] |}.
Proof.
  intros Hne.
  assert (H : exists p, currentPoint points t = Some p /\ In p points).
  { destruct (split_first (fun p => Js.ge (timestamp p) t) points)
      as [(before & x & after & -> & Hb & Hx) | Hnone].
    - exists x. split; [now apply (proj1 currentPoint_at_or_after_gen) |].
      apply in_or_app. right. now left.
    - destruct points as [| p0 rest]; [contradiction |].
      exists (last (p0 :: rest) p0). split.
      + now apply (proj2 currentPoint_at_or_after_gen).
      + destruct (exists_last Hne) as [front [x Hx]]. rewrite Hx, last_last.
        apply in_or_app. right. now left. }
  destruct H as [p [Hp Hin]]. exists p. repeat split; auto.
  unfold markerLayer. now rewrite Hp.
Qed.

Lemma marker_is_a_track_point_witness :
  exists p,
    currentPoint [hourStart; hourEnd] Js.NaN = Some p /\ In p [hourStart; hourEnd] /\
    markerLayer [hourStart; hourEnd] Js.NaN = Some {| layerId := "marker-layer"; data := [p] |}.
Proof.
  apply (marker_is_a_track_point [hourStart; hourEnd] Js.NaN). discriminate.
Defined.

Lemma findIndexFrom_range {A : Type} (pred : A -> bool) (arr : list A) :
  forall i : Z,
    Js.findIndexFrom pred arr i = (-1)%Z \/
    (i <= Js.findIndexFrom pred arr i < i + Z.of_nat (List.length arr))%Z.
Proof.
  induction arr as [| a arr IH]; intros i; simpl; [now left |].
  destruct (pred a); [right; lia |].
  destruct (IH (i + 1)%Z) as [H | H]; [now left | right; lia].
Qed.

Lemma findIndexFrom_monotone {A : Type} (pred1 pred2 : A -> bool) (arr : list A) :
  (forall x, pred2 x = true -> pred1 x = true) ->
  forall i : Z,
    (0 <= i)%Z ->
    Js.findIndexFrom pred2 arr i = (-1)%Z \/
    (i <= Js.findIndexFrom pred1 arr i <= Js.findIndexFrom pred2 arr i)%Z.
Proof.
  intros Himp. induction arr as [| a arr IH]; intros i Hi; simpl; [now left |].
  destruct (pred2 a) eqn:E2.
  - rewrite (Himp _ E2). right. lia.
  - destruct (pred1 a) eqn:E1.
    + destruct (findIndexFrom_range pred2 arr (i + 1)) as [H | H]; [now left | right; lia].
    + destruct (IH (i + 1)%Z ltac:(lia)) as [H | H]; [now left | right; lia].
Qed.

(** X21. As the current time advances the marker never moves back along the
    track, sorted or not: the index of the point it shows does not
    decrease. *)
Theorem marker_never_moves_back (points : list TrackPoint) (t t' : R) :
  t <= t' ->
  (shownIndex points (Js.Num t) <= shownIndex points (Js.Num t'))%Z /\
  currentPoint points (Js.Num t) = Js.at_ points (shownIndex points (Js.Num t)) /\
  currentPoint points (Js.Num t') = Js.at_ points (shownIndex points (Js.Num t')).
Proof.
  intros Ht. split.
  - unfold shownIndex, currentPointIndex, Js.findIndex.
    set (pred1 := fun p : TrackPoint => Js.ge (timestamp p) (Js.Num t)).
    set (pred2 := fun p : TrackPoint => Js.ge (timestamp p) (Js.Num t')).
    assert (Himp : forall p, pred2 p = true -> pred1 p = true).
    { intros p. unfold pred1, pred2. destruct (timestamp p) as [| x]; simpl; [discriminate |].
      intros H. apply leb_true in H. apply leb_true. lra. }
    destruct (findIndexFrom_range pred1 points 0) as [R1 | R1];
      destruct (findIndexFrom_monotone pred1 pred2 points Himp 0 ltac:(lia)) as [M | M];
      destruct (findIndexFrom_range pred2 points 0) as [R2 | R2];
      repeat match goal with
      | |- context [(0 <=? ?z)%Z] => destruct (Z.leb_spec 0 z)
      end; lia.
  - unfold currentPoint, shownIndex. split.
    + now destruct (0 <=? currentPointIndex points (Js.Num t))%Z.
    + now destruct (0 <=? currentPointIndex points (Js.Num t'))%Z.
Qed.

Lemma marker_never_moves_back_witness :
  (shownIndex [hourStart; hourEnd] (Js.Num 0) <= shownIndex [hourStart; hourEnd] (Js.Num 1800000))%Z /\
  currentPoint [hourStart; hourEnd] (Js.Num 0)
    = Js.at_ [hourStart; hourEnd] (shownIndex [hourStart; hourEnd] (Js.Num 0)) /\
  currentPoint [hourStart; hourEnd] (Js.Num 1800000)
    = Js.at_ [hourStart; hourEnd] (shownIndex [hourStart; hourEnd] (Js.Num 1800000)).
Proof.
  apply (marker_never_moves_back [hourStart; hourEnd] 0 1800000). lra.
Defined.

(** Ticks do nothing to a stopped clock. *)
Lemma run_ticks_stopped (race : RaceData) (rs : list R) :
  forall frameTime st,
    isPlaying st = false -> run race frameTime (map Tick rs) st = st.
Proof.
  induction rs as [| r rs IH]; intros frameTime st Hst; [reflexivity |].
  simpl. rewrite Hst. now apply IH.
Qed.

Lemma run_ticks_to_end (race : RaceData) (e m : R) :
  endTime race = Js.Num e -> 0 < m ->
  forall (n : nat) (c : R) (rs : list R) (frameTime : R),
    e - c < INR n * (1000 * m * (1 / 60)) ->
    (n < List.length rs)%nat ->
    run race frameTime (map Tick rs) (playingAt c m) = stoppedAt e m.
Proof.
  intros He Hm. induction n as [| n IH]; intros c rs frameTime Hn Hlen;
    (destruct rs as [| r rs]; [simpl in Hlen; lia |]);
    cbn [map run step]; unfold frame; cbn [playingAt isPlaying];
    rewrite (animate_playing race c m e He).
  - replace (Js.ltb e (c + 1000 * m * (1 / 60))) with true
      by (symmetry; apply ltb_true; simpl in Hn; lra).
    now apply run_ticks_stopped.
  - destruct (Js.ltb e (c + 1000 * m * (1 / 60))) eqn:E.
    + now apply run_ticks_stopped.
    + apply IH; [| simpl in Hlen; lia]. rewrite S_INR in Hn. lra.
Qed.

(** X22. Playback always comes to the end: from any current time, with a
    positive speed, there is a number of ticks after which the clock is
    stopped at the end time, and it stays there however many more ticks
    arrive and whatever real time they carry. *)
Theorem playback_reaches_the_end (race : RaceData) (e c m : R) :
  endTime race = Js.Num e -> 0 < m ->
  exists n : nat,
    forall (rs : list R) (frameTime : R),
      (n <= List.length rs)%nat ->
      run race frameTime (map Tick rs) (playingAt c m) = stoppedAt e m.
Proof.
  intros He Hm.
  destruct (steps_exist c e (1000 * m * (1 / 60))) as [n Hn]; [lra |].
  exists (S n). intros rs frameTime Hlen.
  apply (run_ticks_to_end race e m He Hm n); [exact Hn | lia].
Qed.

Lemma playback_reaches_the_end_witness :
  exists n : nat,
    forall (rs : list R) (frameTime : R),
      (n <= List.length rs)%nat ->
      run (parseGPX hourTrack) frameTime (map Tick rs) (playingAt 0 100) = stoppedAt 3600000 100.
Proof.
  apply (playback_reaches_the_end (parseGPX hourTrack) 3600000 0 100 eq_refl). lra.
Defined.

Lemma activeSource_registered (activeSourceId : string) :
  activeSource activeSourceId = Currents.rws \/ activeSource activeSourceId = Currents.cmems.
Proof.
  unfold activeSource, Currents.DATA_SOURCES. cbn [find hd].
  destruct (String.eqb (Currents.id Currents.rws) activeSourceId); [now left |].
  destruct (String.eqb (Currents.id Currents.cmems) activeSourceId); [now right | now left].
Qed.

(** X23. Looking a registered source up by its id returns that source: the
    ids of the registry are distinct. *)
Theorem activeSource_of_registered_id (src : Currents.DataSource) :
  In src Currents.DATA_SOURCES ->
  activeSource (Currents.id src) = src /\
  NoDup (map Currents.id Currents.DATA_SOURCES).
Proof.
  intros Hin. split.
  - destruct Hin as [<- | [<- | []]]; reflexivity.
  - simpl. repeat constructor; simpl; intuition discriminate.
Qed.

Lemma activeSource_of_registered_id_witness :
  activeSource "cmems" = Currents.cmems /\
  NoDup (map Currents.id Currents.DATA_SOURCES).
Proof.
  apply (activeSource_of_registered_id Currents.cmems). right. left. reflexivity.
Defined.

Lemma fold_Rmin_le (xs : list R) :
  forall x, fold_left Rmin xs x <= x /\ forall y, In y xs -> fold_left Rmin xs x <= y.
Proof.
  induction xs as [| a xs IH]; intros x; simpl; [split; [lra | intros y []] |].
  destruct (IH (Rmin x a)) as [H1 H2].
  pose proof (Rmin_l x a). pose proof (Rmin_r x a).
  split; [lra |]. intros y [<- | Hy]; [lra | auto].
Qed.

Lemma fold_Rmax_ge (xs : list R) :
  forall x, x <= fold_left Rmax xs x /\ forall y, In y xs -> y <= fold_left Rmax xs x.
Proof.
  induction xs as [| a xs IH]; intros x; simpl; [split; [lra | intros y []] |].
  destruct (IH (Rmax x a)) as [H1 H2].
  pose proof (Rmax_l x a). pose proof (Rmax_r x a).
  split; [lra |]. intros y [<- | Hy]; [lra | auto].
Qed.

Lemma mathMin_spec (xs : list R) :
  xs <> [] -> exists m, mathMin xs = Some m /\ forall y, In y xs -> m <= y.
Proof.
  destruct xs as [| x xs]; [contradiction |]. intros _.
  exists (fold_left Rmin xs x). split; [reflexivity |].
  destruct (fold_Rmin_le xs x) as [H1 H2]. intros y [<- | Hy]; auto.
Qed.

Lemma mathMax_spec (xs : list R) :
  xs <> [] -> exists m, mathMax xs = Some m /\ forall y, In y xs -> y <= m.
Proof.
  destruct xs as [| x xs]; [contradiction |]. intros _.
  exists (fold_left Rmax xs x). split; [reflexivity |].
  destruct (fold_Rmax_ge xs x) as [H1 H2]. intros y [<- | Hy]; auto.
Qed.

(** X24. The box of the currents layer encloses the track with a margin:
    for a track with at least one point it exists, every track point lies at
    least 0.02 degrees inside each of its sides, and its minimum is below
    its maximum on both axes, so it is never degenerate. *)
Theorem currentsBounds_enclose_the_track (points : list TrackPoint) :
  points <> [] ->
  exists minLon minLat maxLon maxLat,
    currentsBounds points = Some (minLon, minLat, maxLon, maxLat) /\
    minLon < maxLon /\ minLat < maxLat /\
    forall p, In p points ->
      minLon <= longitude p - 0.02 /\ longitude p + 0.02 <= maxLon /\
      minLat <= latitude p - 0.02 /\ latitude p + 0.02 <= maxLat.
Proof.
  intros Hne. unfold currentsBounds.
  assert (Hlons : map longitude points <> []) by (destruct points; [contradiction | discriminate]).
  assert (Hlats : map latitude points <> []) by (destruct points; [contradiction | discriminate]).
  destruct (mathMin_spec _ Hlons) as [a [-> Ha]].
  destruct (mathMax_spec _ Hlons) as [b [-> Hb]].
  destruct (mathMin_spec _ Hlats) as [c [-> Hc]].
  destruct (mathMax_spec _ Hlats) as [d [-> Hd]].
  exists (a - 0.02), (c - 0.02), (b + 0.02), (d + 0.02).
  assert (Hall : forall p, In p points ->
            a <= longitude p <= b /\ c <= latitude p <= d).
  { intros p Hp. pose proof (in_map longitude _ _ Hp). pose proof (in_map latitude _ _ Hp).
    repeat split; auto. }
  split; [reflexivity |].
  destruct points as [| p0 rest]; [contradiction |].
  destruct (Hall p0 (or_introl eq_refl)) as [H1 H2].
  split; [lra | split; [lra |]].
  intros p Hp. destruct (Hall p Hp). lra.
Qed.

Lemma currentsBounds_enclose_the_track_witness :
  exists minLon minLat maxLon maxLat,
    currentsBounds [hourStart; hourEnd] = Some (minLon, minLat, maxLon, maxLat) /\
    minLon < maxLon /\ minLat < maxLat /\
    forall p, In p [hourStart; hourEnd] ->
      minLon <= longitude p - 0.02 /\ longitude p + 0.02 <= maxLon /\
      minLat <= latitude p - 0.02 /\ latitude p + 0.02 <= maxLat.
Proof.
  apply (currentsBounds_enclose_the_track [hourStart; hourEnd]). discriminate.
Defined.

Lemma currentsBounds_track (points : list TrackPoint) :
  points <> [] ->
  exists minLon minLat maxLon maxLat,
    currentsBounds points = Some (minLon, minLat, maxLon, maxLat) /\
    minLon <= maxLon /\ minLat <= maxLat.
Proof.
  intros Hne. destruct points as [| p0 rest]; [contradiction |].
  unfold currentsBounds. cbn [map mathMin mathMax].
  do 4 eexists. split; [reflexivity |].
  pose proof (fold_Rmin_le (map longitude rest) (longitude p0)) as [A _].
  pose proof (fold_Rmax_ge (map longitude rest) (longitude p0)) as [B _].
  pose proof (fold_Rmin_le (map latitude rest) (latitude p0)) as [C _].
  pose proof (fold_Rmax_ge (map latitude rest) (latitude p0)) as [D _].
  lra.
Qed.

(** X25. The currents layer always has arrows for a track with at least one
    point: on the box of that track, for every source id and every time,
    the sampler returns once it has enough fuel, and what it returns is not
    empty. *)
Theorem currents_are_never_empty (points : list TrackPoint) (bounds : Currents.Bounds)
    (activeSourceId : string) (currentTime : R) :
  currentsBounds points = Some bounds ->
  exists fuel0 : nat,
    forall fuel, (fuel0 <= fuel)%nat ->
      exists samples,
        currents fuel activeSourceId bounds currentTime = Some samples /\ samples <> [].
Proof.
  intros Hb.
  assert (Hne : points <> []).
  { intros ->. discriminate. }
  destruct (currentsBounds_track _ Hne) as (minLon & minLat & maxLon & maxLat & Hb' & Hw & Hh).
  rewrite Hb in Hb'. injection Hb' as ->.
  unfold currents.
  assert (Hgrid : forall po m d,
            exists fuel0 : nat, forall fuel, (fuel0 <= fuel)%nat ->
              exists samples,
                Currents.generateMockGrid fuel (minLon, minLat, maxLon, maxLat)
                  currentTime 0.002 po m d = Some samples /\ samples <> []).
  { intros po m d.
    destruct (CurrentsFacts.generateMockGrid_returns (minLon, minLat, maxLon, maxLat)
                currentTime 0.002 po m d ltac:(lra)) as [fuel0 Hret].
    exists fuel0. intros fuel Hfuel. destruct (Hret fuel Hfuel) as [samples Hs].
    exists samples. split; [exact Hs |].
    unfold Currents.generateMockGrid in Hs.
    destruct (forUpTo_first _ fuel minLon maxLon 0.002 samples Hw Hs) as (ys & rest & Hys & ->).
    destruct (forUpTo_first _ fuel minLat maxLat 0.002 ys Hh Hys) as (zs & rest' & [= <-] & ->).
    discriminate. }
  destruct (activeSource_registered activeSourceId) as [-> | ->]; apply Hgrid.
Qed.

Lemma currents_are_never_empty_witness :
  exists fuel0 : nat,
    forall fuel, (fuel0 <= fuel)%nat ->
      exists samples,
        currents fuel "rws" (4.27 - 0.02, 52.11 - 0.02, 4.27 + 0.02, 52.11 + 0.02) 0
          = Some samples /\ samples <> [].
Proof.
  apply (currents_are_never_empty [hourStart]). reflexivity.
Defined.



End PlaybackFacts.
